(** * The local knowledge store of the PDF chat agent

    A shallow embedding of [backend/template/agent/tools/read_pdf.py]:
    the chunker, the embedding adapter, cosine similarity, the JSON file
    store, the ingestion pipeline, the ranker and the [retrieve] tool,
    followed by the properties of the specification that concern them.

    Python values are modelled as follows.
    - [str] is [string]; a character is an [ascii], read as a code point
      below 256.  [list(text)] is [list_ascii_of_string] and ["".join] is
      [string_of_list_ascii].
    - [int] is [Z]; [float] is the kernel's binary64 [float], whose
      operations are the IEEE 754 ones Python uses.
    - A call that may raise returns an [outcome]; [try]/[except] is a
      [match] on it.
    - The files of the store are a finite map from paths to contents. *)

From Stdlib Require Import ZArith List Bool Ascii String Floats Lia.
From Stdlib Require Import Permutation DecimalString.
From stdpp Require Import gmap strings sorting.
Import ListNotations.

Local Open Scope string_scope.
Local Open Scope list_scope.
Local Open Scope Z_scope.

(** ** Python primitives *)

Module Py.

(** The result of a call that may raise. *)
Inductive outcome (A : Type) : Type :=
| Return (a : A)
| Raise (msg : string).
Arguments Return {A} a.
Arguments Raise {A} msg.

(** [str.isspace] on the code points below 256: TAB..CR, FS..US, SPACE,
    NEL and NBSP. *)
Definition isspace (c : ascii) : bool :=
  let n := N_of_ascii c in
  ((9 <=? n) && (n <=? 13) || (28 <=? n) && (n <=? 32)
   || (n =? 133) || (n =? 160))%N.

Fixpoint lstrip_chars (s : list ascii) : list ascii :=
  match s with
  | c :: s' => if isspace c then lstrip_chars s' else s
  | [] => []
  end.

Definition rstrip_chars (s : list ascii) : list ascii :=
  rev (lstrip_chars (rev s)).

Definition strip_chars (s : list ascii) : list ascii :=
  rstrip_chars (lstrip_chars s).

(** [s.strip()] *)
Definition strip (s : string) : string :=
  string_of_list_ascii (strip_chars (list_ascii_of_string s)).

(** Truthiness of a [str]: [if s] holds for the non-empty strings. *)
Definition truthy (s : string) : bool :=
  match s with
  | EmptyString => false
  | String _ _ => true
  end.

(** A slice bound [i] of a sequence of length [n], as [l[a:b]] clamps it:
    a negative bound counts from the end. *)
Definition slice_bound (n i : Z) : Z :=
  if i <? 0 then Z.max 0 (i + n) else Z.min i n.

(** [l[start:stop]] *)
Definition slice {A : Type} (l : list A) (start stop : Z) : list A :=
  let n := Z.of_nat (length l) in
  let lo := slice_bound n start in
  let hi := slice_bound n stop in
  firstn (Z.to_nat (hi - lo)) (skipn (Z.to_nat lo) l).

(** [l[start:]] *)
Definition slice_from {A : Type} (l : list A) (start : Z) : list A :=
  skipn (Z.to_nat (slice_bound (Z.of_nat (length l)) start)) l.

(** [str(i)] for an [int]. *)
Definition str_of_int (i : Z) : string :=
  NilZero.string_of_int (Z.to_int i).

(** [s.replace("\n", " ")] *)
Fixpoint replace_newlines (s : string) : string :=
  match s with
  | EmptyString => EmptyString
  | String c s' =>
      String (if Ascii.eqb c "010"%char then " "%char else c)
             (replace_newlines s')
  end.

(** ["\n".join(lines)] *)
Fixpoint join_lines (lines : list string) : string :=
  match lines with
  | [] => ""
  | [l] => l
  | l :: ls => (l ++ String "010"%char (join_lines ls))%string
  end.

(** [enumerate(l, start)] *)
Fixpoint enumerate {A : Type} (start : Z) (l : list A) : list (Z * A) :=
  match l with
  | [] => []
  | x :: l' => (start, x) :: enumerate (start + 1) l'
  end.

End Py.

(** ** Chunking *)

(** The [while] loop of [chunk_text].  [fuel] bounds the number of times
    the loop condition is tested; [None] means the bound was reached. *)
Fixpoint chunk_loop (fuel : nat) (tokens : list ascii)
    (max_chars overlap start : Z) (chunks : list string)
    : option (list string) :=
  match fuel with
  | O => None
  | S fuel' =>
      let n := Z.of_nat (length tokens) in
      if start <? n then
        let end_ := Z.min (start + max_chars) n in
        let chunk :=
          Py.strip (string_of_list_ascii (Py.slice tokens start end_)) in
        let chunks' := chunks ++ [chunk] in
        if end_ =? n then Some chunks'
        else chunk_loop fuel' tokens max_chars overlap
                        (Z.max 0 (end_ - overlap)) chunks'
      else Some chunks
  end.

(** [chunk_text] with the loop bounded by [fuel]. *)
Definition chunk_text_fuel (fuel : nat) (text : string)
    (max_chars overlap : Z) : option (list string) :=
  if Py.truthy text then
    let tokens := list_ascii_of_string text in
    match chunk_loop fuel tokens max_chars overlap 0 [] with
    | Some chunks => Some (List.filter Py.truthy chunks)
    | None => None
    end
  else Some [].

(** [chunk_text(text, max_chars, overlap)].  Every iteration of the loop
    starts at a position in [0, len(text)), so a run that tests the loop
    condition more than [len(text) + 1] times repeats a position and never
    leaves the loop ([chunk_text_fuel_exact] below): it appends to [chunks]
    until memory is exhausted, and the [except] clause turns the error into
    the empty list. *)
Definition chunk_text (text : string) (max_chars overlap : Z) : list string :=
  match chunk_text_fuel (S (String.length text)) text max_chars overlap with
  | Some chunks => chunks
  | None => []
  end.

(** ** Embeddings and similarity *)

Definition vector : Type := list float.

(** The part of an OpenAI client the store uses:
    [client.embeddings.create(model=model, input=texts)] raises, or answers
    with [resp.data], given here by the embedding of each entry. *)
Record OpenAI : Type := {
  embeddings_create : string -> list string -> Py.outcome (list vector)
}.

Definition default_model : string := "text-embedding-3-small".

Definition is_nil {A : Type} (l : list A) : bool :=
  match l with
  | [] => true
  | _ :: _ => false
  end.

(** [embed_texts(client, texts, model)] *)
Definition embed_texts (client : OpenAI) (texts : list string)
    (model : string) : list vector :=
  if is_nil texts then []
  else match embeddings_create client model texts with
       | Py.Return data => data
       | Py.Raise _ => []
       end.

(** [math.sqrt(x)]: a [ValueError] below zero. *)
Definition math_sqrt (x : float) : Py.outcome float :=
  if (x <? 0)%float then Py.Raise "math domain error"
  else Py.Return (PrimFloat.sqrt x).

(** [x / y] on floats: a [ZeroDivisionError] when [y == 0.0]. *)
Definition float_div (x y : float) : Py.outcome float :=
  if (y =? 0)%float then Py.Raise "float division by zero"
  else Py.Return (x / y)%float.

(** One turn of the loop of [cosine_similarity] on the accumulators
    [(dot, na, nb)]. *)
Definition cosine_step (acc : float * float * float) (xy : float * float)
    : float * float * float :=
  let '(dot, na, nb) := acc in
  let '(x, y) := xy in
  (dot + x * y, na + x * x, nb + y * y)%float.

(** The accumulators after the loop over [zip(a, b)]. *)
Definition cosine_sums (a b : vector) : float * float * float :=
  fold_left cosine_step (combine a b) (0, 0, 0)%float.

(** The last statement of the [try] block, reached when neither sum is
    [0.0]. *)
Definition cosine_quotient (dot na nb : float) : Py.outcome float :=
  match math_sqrt na with
  | Py.Raise e => Py.Raise e
  | Py.Return ra =>
      match math_sqrt nb with
      | Py.Raise e => Py.Raise e
      | Py.Return rb => float_div dot (ra * rb)%float
      end
  end.

(** [cosine_similarity(a, b)] *)
Definition cosine_similarity (a b : vector) : float :=
  let '(dot, na, nb) := cosine_sums a b in
  if ((na =? 0) || (nb =? 0))%float then 0%float
  else match cosine_quotient dot na nb with
       | Py.Return r => r
       | Py.Raise _ => 0%float
       end.

(** Whether a run of [cosine_similarity(a, b)] gets to the division of its
    last statement: the sums pass the test for zero and both square roots
    return. *)
Definition reaches_division (a b : vector) : bool :=
  let '(dot, na, nb) := cosine_sums a b in
  if ((na =? 0) || (nb =? 0))%float then false
  else match math_sqrt na, math_sqrt nb with
       | Py.Return _, Py.Return _ => true
       | _, _ => false
       end.

(** ** The JSON store *)

(** A stored chunk and a stored document, as JSON objects: a key may be
    missing, which the readers turn into a default with [.get]. *)
Record chunk : Type := {
  chunk_id : option string;
  text : option string;
  embedding : option vector
}.

Record document : Type := {
  document_id : option string;
  source_path : option string;
  name : option string;
  chunks : option (list chunk)
}.

(** What a file holds: a JSON object with a list of documents under
    ["documents"], or anything [load_db] takes for an empty store (not
    JSON, not an object, or an object without ["documents"]). *)
Inductive file : Type :=
| Json (documents : list document)
| Unreadable.

(** The files, by path.  A path is the string the program opens the file
    with: the working directory, links and other spellings of one file are
    not resolved, so two paths name one file here only when they are one
    string. *)
Abbreviation files := (gmap string file).

(** [load_db(db_path)], as the list under ["documents"]. *)
Definition load_db (fs : files) (db_path : string) : list document :=
  match fs !! db_path with
  | Some (Json documents) => documents
  | Some Unreadable => []
  | None => []
  end.

(** What goes wrong while [save_db] runs, if anything. *)
Inductive io_fault : Type :=
| NoFault
| OpenFails
| ReplaceFails.

(** [os.replace(src, dst)] on an existing [src]. *)
Definition os_replace (fs : files) (src dst : string) : files :=
  match fs !! src with
  | Some f => <[dst := f]> (delete src fs)
  | None => fs
  end.

(** [save_db(db_path, data)]: the new contents go to [db_path + ".tmp"],
    which then replaces [db_path]; a failure is printed and swallowed. *)
Definition save_db (fault : io_fault) (fs : files) (db_path : string)
    (data : list document) : files :=
  let tmp := (db_path ++ ".tmp")%string in
  match fault with
  | OpenFails => fs
  | ReplaceFails => <[tmp := Json data]> fs
  | NoFault => os_replace (<[tmp := Json data]> fs) tmp db_path
  end.

(** ** The surroundings of a call *)

(** What the functions read from outside the store. *)
Record world : Type := {
  (** the text [extract_text_from_pdf] gets out of the file at a path,
      [""] when every extractor fails *)
  extract_text_from_pdf : string -> string;
  (** [str(uuid.uuid4())] *)
  uuid4 : string;
  (** [os.path.abspath] *)
  abspath : string -> string;
  (** [os.path.basename] *)
  basename : string -> string;
  (** [os.getcwd()] *)
  getcwd : Py.outcome string;
  (** [OpenAI()] *)
  new_client : Py.outcome OpenAI;
  (** the fate of the next [save_db] *)
  save_fault : io_fault
}.

(** ** Ingestion *)

(** The chunk objects of a new document:
    [[{"chunk_id": f"{doc_id}_{i}", "text": ch, "embedding": vec}
      for i, (ch, vec) in enumerate(zip(chunks, vectors))]]. *)
Definition make_chunks (doc_id : string) (chunks : list string)
    (vectors : list vector) : list chunk :=
  map (fun '(i, (ch, vec)) =>
         {| chunk_id := Some (doc_id ++ "_" ++ Py.str_of_int i)%string;
            text := Some ch;
            embedding := Some vec |})
      (Py.enumerate 0 (combine chunks vectors)).

(** [ingest_pdf_to_db(pdf_path, db_path, client)]: the value returned and
    the files afterwards. *)
Definition ingest_pdf_to_db (w : world) (fs : files)
    (pdf_path db_path : string) (client : OpenAI) : option string * files :=
  let raw_text := extract_text_from_pdf w pdf_path in
  if negb (Py.truthy raw_text) then (None, fs)
  else
    let chunks := chunk_text raw_text 1200 150 in
    if is_nil chunks then (None, fs)
    else
      let vectors := embed_texts client chunks default_model in
      if is_nil vectors || negb (length vectors =? length chunks)%nat
      then (None, fs)
      else
        let doc_id := uuid4 w in
        let record :=
          {| document_id := Some doc_id;
             source_path := Some (abspath w pdf_path);
             name := Some (basename w pdf_path);
             chunks := Some (make_chunks doc_id chunks vectors) |} in
        let db := load_db fs db_path in
        (Some doc_id, save_db (save_fault w) fs db_path (db ++ [record])).

(** ** Ranking *)

(** [list.sort(key=key, reverse=True)].  The sort compares keys with [<]
    only and is stable; with [reverse=True] it reverses the list, sorts it
    in ascending order and reverses the result, which keeps equal keys in
    their original order.  The ascending sort is given as an insertion
    sort: on keys that [<] orders, every stable sort yields the same
    list.  With a NaN among the keys [<] orders nothing, and the list
    CPython yields depends on the steps of its own merge sort, which this
    sort does not follow: of such a list only what holds of every
    arrangement of the entries is proved below. *)
Section ListSort.
Context {A : Type} (lt : A -> A -> bool).

Fixpoint insert_sorted (x : A) (l : list A) : list A :=
  match l with
  | [] => [x]
  | y :: l' => if lt y x then y :: insert_sorted x l' else x :: l
  end.

Fixpoint sort_ascending (l : list A) : list A :=
  match l with
  | [] => []
  | x :: l' => insert_sorted x (sort_ascending l')
  end.

Definition sort_reverse (l : list A) : list A :=
  rev (sort_ascending (rev l)).
End ListSort.

(** A search result: [(score, text, source)]. *)
Definition hit : Type := float * string * string.

Definition score (h : hit) : float := fst (fst h).

(** The key comparison of [results.sort(key=lambda x: x[0], ...)]. *)
Definition score_lt (h1 h2 : hit) : bool := (score h1 <? score h2)%float.

(** The two nested loops of [search_db] that fill [results]. *)
Definition score_chunks (q : vector) (docs : list document) : list hit :=
  flat_map
    (fun doc =>
       let source := default "unknown" (source_path doc) in
       map (fun ch =>
              let emb := default [] (embedding ch) in
              let txt := default "" (text ch) in
              (cosine_similarity q emb, txt, source))
           (default [] (chunks doc)))
    docs.

(** The ranking part of [search_db]: score every chunk, sort, cut. *)
Definition rank (q : vector) (docs : list document) (top_k : Z) : list hit :=
  let results := sort_reverse score_lt (score_chunks q docs) in
  firstn (Z.to_nat (Z.max 1 top_k)) results.

(** [search_db(db_path, client, query, top_k)] *)
Definition search_db (fs : files) (db_path : string) (client : OpenAI)
    (query : string) (top_k : Z) : list hit :=
  let docs := load_db fs db_path in
  if is_nil docs then []
  else
    match embed_texts client [query] default_model with
    | [] => []
    | q :: _ => rank q docs top_k
    end.

(** ** The retrieve tool *)

(** [os.path.join(a, b)] on POSIX paths. *)
Definition path_join (a b : string) : string :=
  match b with
  | String "/"%char _ => b
  | _ =>
      match rev (list_ascii_of_string a) with
      | [] => b
      | "/"%char :: _ => (a ++ b)%string
      | _ :: _ => (a ++ "/" ++ b)%string
      end
  end.

(** The [try] block of [get_user_db_path] past its first test: the path
    under the working directory, or the relative path of the [except]
    clause when [os.getcwd()] raises. *)
Definition default_user_db_path (w : world) (user_id session_id : Z)
    : string :=
  match getcwd w with
  | Py.Return cwd =>
      let db_dir :=
        path_join (path_join (path_join cwd "database")
                             (Py.str_of_int user_id))
                  (Py.str_of_int session_id) in
      path_join db_dir "rag_vector_db.json"
  | Py.Raise _ =>
      ("database/" ++ Py.str_of_int user_id ++ "/" ++ Py.str_of_int session_id
       ++ "/rag_vector_db.json")%string
  end.

(** [get_user_db_path(user_id, session_id, custom_path)] *)
Definition get_user_db_path (w : world) (user_id session_id : Z)
    (custom_path : option string) : string :=
  match custom_path with
  | Some p =>
      if Py.truthy p then p else default_user_db_path w user_id session_id
  | None => default_user_db_path w user_id session_id
  end.

(** [get_openai_client()]: the error of [OpenAI()] is raised again. *)
Definition get_openai_client (w : world) : Py.outcome OpenAI :=
  new_client w.

(** Four digits, with zeros in front. *)
Definition pad4 (s : string) : string :=
  let zeros := repeat "0"%char (4 - String.length s)%nat in
  (string_of_list_ascii zeros ++ s)%string.

(** [f"{x:.4f}"]: the decimal expansion of [x], rounded to four places,
    halves to even. *)
Definition format_4f (x : float) : string :=
  match Prim2SF x with
  | S754_nan => "nan"
  | S754_infinity s => if s then "-inf" else "inf"
  | S754_zero s => if s then "-0.0000" else "0.0000"
  | S754_finite s m e =>
      let num := Z.pos m * 10000 * 2 ^ Z.max e 0 in
      let den := 2 ^ Z.max (- e) 0 in
      let q := num / den in
      let r := num mod den in
      let q' := if (den <? 2 * r) || ((den =? 2 * r) && Z.odd q)
                then q + 1 else q in
      ((if s then "-" else "") ++ Py.str_of_int (q' / 10000) ++ "."
       ++ pad4 (Py.str_of_int (q' mod 10000)))%string
  end.

(** One entry of [lines] in [retrieve]. *)
Definition format_hit (ih : Z * hit) : string :=
  let '(i, (score, text, source)) := ih in
  let snippet := Py.replace_newlines (Py.strip text) in
  let snippet :=
    if (800 <? String.length snippet)%nat
    then (substring 0 800 snippet ++ "...")%string
    else snippet in
  ("[" ++ Py.str_of_int i ++ "] score=" ++ format_4f score ++ " | source="
   ++ source ++ String "010"%char snippet ++ String "010"%char "")%string.

Definition no_results (user_id session_id : Z) : string :=
  ("No results found in the knowledge base for user "
   ++ Py.str_of_int user_id ++ ", session " ++ Py.str_of_int session_id
   ++ ". Please upload a PDF document first.")%string.

(** The [query] argument as the tool receives it. *)
Inductive query_arg : Type :=
| Str (s : string)
| NotStr.

(** The [try] block of [retrieve]. *)
Definition retrieve_try (w : world) (fs : files) (query : query_arg)
    (user_id session_id top_k : Z) (db_path : option string)
    : Py.outcome string :=
  match query with
  | NotStr => Py.Return "Query must be a non-empty string."
  | Str q =>
      if negb (Py.truthy q) then Py.Return "Query must be a non-empty string."
      else
        match get_openai_client w with
        | Py.Raise e => Py.Raise e
        | Py.Return client =>
            let path := get_user_db_path w user_id session_id db_path in
            let hits := search_db fs path client q top_k in
            if is_nil hits then Py.Return (no_results user_id session_id)
            else
              let lines := map format_hit (Py.enumerate 1 hits) in
              Py.Return (Py.join_lines lines)
        end
  end.

(** [retrieve(query, user_id, session_id, top_k, db_path)] *)
Definition retrieve (w : world) (fs : files) (query : query_arg)
    (user_id session_id top_k : Z) (db_path : option string)
    : Py.outcome string :=
  match retrieve_try w fs query user_id session_id top_k db_path with
  | Py.Return s => Py.Return s
  | Py.Raise e => Py.Return ("[retrieve tool error] " ++ e)%string
  end.

(** ** The other paths *)

(** [get_db_path(custom_path)] *)
Definition get_db_path (w : world) (custom_path : option string) : string :=
  let fallback :=
    match getcwd w with
    | Py.Return cwd => path_join cwd "rag_demo_db.json"
    | Py.Raise _ => "rag_demo_db.json"
    end in
  match custom_path with
  | Some p => if Py.truthy p then p else fallback
  | None => fallback
  end.

(** ** Text extraction *)

Module Pdf.

(** What the three PDF libraries make of the file at a path: the texts of
    its pages, or an error.  [page.extract_text()] of pdfplumber and pypdf
    may give [None] for a page. *)
Record libs : Type := {
  isfile : string -> bool;
  fitz_pages : string -> Py.outcome (list string);
  pdfplumber_pages : string -> Py.outcome (list (option string));
  pypdf_pages : string -> Py.outcome (list (option string))
}.

(** [extract_text_pymupdf(pdf_path)].  The modules are imported when the
    file is loaded, so the tests [if not fitz] and the like never fire. *)
Definition extract_text_pymupdf (l : libs) (pdf_path : string)
    : Py.outcome string :=
  match fitz_pages l pdf_path with
  | Py.Return pages => Py.Return (Py.strip (Py.join_lines pages))
  | Py.Raise e => Py.Raise ("PyMuPDF extraction failed: " ++ e)%string
  end.

(** [extract_text_pdfplumber(pdf_path)] *)
Definition extract_text_pdfplumber (l : libs) (pdf_path : string)
    : Py.outcome string :=
  match pdfplumber_pages l pdf_path with
  | Py.Return pages =>
      Py.Return (Py.strip (Py.join_lines (map (default "") pages)))
  | Py.Raise e => Py.Raise ("pdfplumber extraction failed: " ++ e)%string
  end.

(** [extract_text_pypdf(pdf_path)] *)
Definition extract_text_pypdf (l : libs) (pdf_path : string)
    : Py.outcome string :=
  match pypdf_pages l pdf_path with
  | Py.Return pages =>
      Py.Return (Py.strip (Py.join_lines (map (default "") pages)))
  | Py.Raise e => Py.Raise ("pypdf extraction failed: " ++ e)%string
  end.

(** The loop of [extract_text_from_pdf] over the extractors left to
    try. *)
Fixpoint try_extractors (extractors : list (string -> Py.outcome string))
    (pdf_path : string) : string :=
  match extractors with
  | [] => ""
  | extractor :: rest =>
      match extractor pdf_path with
      | Py.Return text =>
          if Py.truthy text then text else try_extractors rest pdf_path
      | Py.Raise _ => try_extractors rest pdf_path
      end
  end.

(** [extract_text_from_pdf(pdf_path)] *)
Definition extract_text_from_pdf (l : libs) (pdf_path : string) : string :=
  if negb (isfile l pdf_path) then ""
  else
    try_extractors
      [extract_text_pymupdf l; extract_text_pdfplumber l; extract_text_pypdf l]
      pdf_path.

End Pdf.

(** ** The upload endpoint *)

Module Router.

(** [APIResponse] of [template/schemas/model.py]. *)
Record APIResponse : Type := {
  session_id : option Z;
  user_id : option Z;
  response : string;
  error_status : string
}.

(** The uploaded file: its content type and name, either of which may be
    [None], and what its bytes are when a store is read from them. *)
Record UploadFile : Type := {
  content_type : option string;
  filename : option string;
  content : file
}.

(** What goes wrong while the upload is written, if anything: the file
    cannot be opened, or the write stops part way. *)
Inductive write_fault : Type :=
| WriteOk
| WriteOpenFails (msg : string)
| WriteStops (msg : string).

(** What the endpoint reads from outside: the two roots of the missing
    [template.configs.environments], the value of [OPENAI_API_KEY] once
    [load_dotenv()] has run (or the error of that), and the fate of its
    three file operations. *)
Record server : Type := {
  UPDATE_PATH : string;
  DATABASE_PATH : string;
  openai_api_key : Py.outcome string;
  make_folder : Py.outcome unit;
  write_upload : write_fault;
  make_database : Py.outcome unit
}.

(** How a call ends: with a response, or with [sys.exit(code)], which
    [except Exception] does not catch. *)
Inductive ending (A : Type) : Type :=
| Responds (a : A)
| Exits (code : Z).
Arguments Responds {A} a.
Arguments Exits {A} code.

(** [setup_env()] *)
Definition setup_env (sv : server) : ending unit :=
  match openai_api_key sv with
  | Py.Return key => if Py.truthy (Py.strip key) then Responds tt else Exits 1
  | Py.Raise _ => Exits 1
  end.

(** [f"{x}"] for a name that may be [None]. *)
Definition format_optional (x : option string) : string := default "None" x.

(** [env.UPDATE_PATH + f"/{user_id}/{session_id}/pdf"] *)
Definition folder_path (sv : server) (user_id session_id : Z) : string :=
  (UPDATE_PATH sv ++ "/" ++ Py.str_of_int user_id ++ "/"
   ++ Py.str_of_int session_id ++ "/pdf")%string.

(** [f"{folder_path}/{file.filename}"] *)
Definition file_path (sv : server) (user_id session_id : Z)
    (upload : UploadFile) : string :=
  (folder_path sv user_id session_id ++ "/"
   ++ format_optional (filename upload))%string.

(** [env.DATABASE_PATH + f"/{user_id}/{session_id}"] *)
Definition database_path (sv : server) (user_id session_id : Z) : string :=
  (DATABASE_PATH sv ++ "/" ++ Py.str_of_int user_id ++ "/"
   ++ Py.str_of_int session_id)%string.

(** The store the endpoint ingests into:
    [get_db_path(database_path + "/rag_vector_db.json")]. *)
Definition upload_db_path (sv : server) (w : world)
    (user_id session_id : Z) : string :=
  get_db_path w
    (Some (database_path sv user_id session_id ++ "/rag_vector_db.json")%string).

Definition error_response (user_id session_id : Z) (e : string)
    : APIResponse :=
  {| session_id := Some session_id;
     user_id := Some user_id;
     response := "";
     error_status := ("Error processing file: " ++ e)%string |}.

(** The [try] block of [upload_pdf] from the write of the upload on. *)
Definition store_upload (sv : server) (w : world) (fs : files)
    (session_id user_id : Z) (upload : UploadFile)
    : ending APIResponse * files :=
  let path := file_path sv user_id session_id upload in
  match write_upload sv with
  | WriteOpenFails e => (Responds (error_response user_id session_id e), fs)
  | WriteStops e =>
      (Responds (error_response user_id session_id e),
       <[path := Unreadable]> fs)
  | WriteOk =>
      let fs1 := <[path := content upload]> fs in
      match make_database sv with
      | Py.Raise e => (Responds (error_response user_id session_id e), fs1)
      | Py.Return _ =>
          match setup_env sv with
          | Exits code => (Exits code, fs1)
          | Responds _ =>
              match get_openai_client w with
              | Py.Raise e =>
                  (Responds (error_response user_id session_id e), fs1)
              | Py.Return client =>
                  let db_path := upload_db_path sv w user_id session_id in
                  let '(doc_id, fs2) :=
                    ingest_pdf_to_db w fs1 path db_path client in
                  (Responds
                     {| session_id := Some session_id;
                        user_id := Some user_id;
                        response := "PDF file uploaded successfully.";
                        error_status := "success" |},
                   fs2)
              end
          end
      end
  end.

(** [upload_pdf(session_id, user_id, file)]: how the call ends and the
    files afterwards. *)
Definition upload_pdf (sv : server) (w : world) (fs : files)
    (session_id user_id : Z) (upload : UploadFile)
    : ending APIResponse * files :=
  if negb (bool_decide (content_type upload = Some "application/pdf")) then
    (Responds {| session_id := None;
                 user_id := None;
                 response := "";
                 error_status := "Invalid file type. Please upload a PDF file." |},
     fs)
  else if bool_decide (filename upload = Some "") then
    (Responds {| session_id := None;
                 user_id := None;
                 response := "";
                 error_status := "No file uploaded. Please upload a PDF file." |},
     fs)
  else
    match make_folder sv with
    | Py.Raise e => (Responds (error_response user_id session_id e), fs)
    | Py.Return _ => store_upload sv w fs session_id user_id upload
    end.

End Router.

(** * Definitions of the specification *)

(** ** The windows of the specification *)

(** The distance between the starts of two consecutive windows. *)
Definition window_step (max_chars overlap : Z) : nat :=
  Z.to_nat (max_chars - overlap).

(** Window [k]: up to [max_chars] characters from position
    [k * (max_chars - overlap)]. *)
Definition spec_window (text : string) (max_chars overlap : Z) (k : nat)
    : string :=
  substring (k * window_step max_chars overlap) (Z.to_nat max_chars) text.

(** The index of the first window that reaches the end of a text of [n]
    characters: the least [k] with [k * step + max_chars >= n]. *)
Definition last_window (n : nat) (max_chars overlap : Z) : nat :=
  Z.to_nat ((Z.of_nat n - max_chars + (max_chars - overlap) - 1)
            / (max_chars - overlap)).

Definition spec_windows (text : string) (max_chars overlap : Z)
    : list string :=
  map (spec_window text max_chars overlap)
      (seq 0 (S (last_window (String.length text) max_chars overlap))).

(** [c[overlap:]] *)
Definition drop_overlap (overlap : Z) (c : string) : string :=
  string_of_list_ascii (Py.slice_from (list_ascii_of_string c) overlap).

(** The chunks put end to end, each one after the first without its first
    [overlap] characters. *)
Definition reconstruct (overlap : Z) (chunks : list string) : string :=
  match chunks with
  | [] => ""
  | c :: cs =>
      fold_left (fun acc c' => (acc ++ drop_overlap overlap c')%string) cs c
  end.

(** ** Runs of the loop, orders and sums *)

(** The window the loop cuts on its turn [k]. *)
Definition loop_window (tokens : list ascii) (max_chars overlap : Z)
    (k : nat) : string :=
  Py.strip (string_of_list_ascii
              (Py.slice tokens (Z.of_nat k * (max_chars - overlap))
                 (Z.min (Z.of_nat k * (max_chars - overlap) + max_chars)
                        (Z.of_nat (length tokens))))).

(** The number of times a run of the loop of [chunk_text] tests its
    condition, from the position [start] in a text of [n] characters, when
    [fuel] allows that many. *)
Fixpoint loop_tests (fuel : nat) (n max_chars overlap start : Z)
    : option nat :=
  match fuel with
  | O => None
  | S fuel' =>
      if start <? n then
        if Z.min (start + max_chars) n =? n then Some 1%nat
        else S <$> loop_tests fuel' n max_chars overlap
                     (Z.max 0 (Z.min (start + max_chars) n - overlap))
      else Some 1%nat
  end.

(** Whether trimming leaves a window as it is. *)
Definition trim_free (w : string) : Prop := Py.strip w = w.

(** The embeddings of the stored chunks, in the order the ranker visits
    them. *)
Definition stored_embeddings (docs : list document) : list vector :=
  flat_map
    (fun doc => map (fun ch => default [] (embedding ch))
                    (default [] (chunks doc)))
    docs.

(** A float that is not NaN, by a triple that the lexicographic order on
    integers compares as [SFcompare] compares floats: the sign class, then
    the exponent, then the mantissa. *)
Definition float_key (f : spec_float) : Z * Z * Z :=
  match f with
  | S754_nan => (0, 0, 0)
  | S754_zero _ => (0, 0, 0)
  | S754_infinity s => if s then (-2, 0, 0) else (2, 0, 0)
  | S754_finite s m e => if s then (-1, - e, Z.neg m) else (1, e, Z.pos m)
  end.

Definition lex_compare (a b : Z * Z * Z) : comparison :=
  let '(a1, a2, a3) := a in
  let '(b1, b2, b3) := b in
  match a1 ?= b1 with
  | Eq => match a2 ?= b2 with
          | Eq => a3 ?= b3
          | c => c
          end
  | c => c
  end.

(** Neither element is below the other. *)
Definition tie {A : Type} (lt : A -> A -> bool) (x y : A) : bool :=
  negb (lt x y) && negb (lt y x).

(** No element is below an earlier one. *)
Definition ascending {A : Type} (lt : A -> A -> bool) : list A -> Prop :=
  StronglySorted (fun a b => lt b a = false).

(** No element is above an earlier one. *)
Definition descending {A : Type} (lt : A -> A -> bool) : list A -> Prop :=
  StronglySorted (fun a b => lt a b = false).

(** The number of chunks in the documents of a store. *)
Definition total_chunks (docs : list document) : nat :=
  list_sum (map (fun doc => length (default [] (chunks doc))) docs).

(** A hit whose score is a number. *)
Definition scored (h : hit) : Prop := is_nan (score h) = false.

(** Every score is at least the scores that come after it, with [<=] on
    floats. *)
Definition descending_scores : list hit -> Prop :=
  StronglySorted (fun h1 h2 => (score h2 <=? score h1)%float = true).

(** A float of the specification that is not below zero: a zero, a
    positive number, plus infinity, or NaN. *)
Definition not_negative (f : spec_float) : Prop :=
  match f with
  | S754_zero _ => True
  | S754_nan => True
  | S754_infinity s => s = false
  | S754_finite s _ _ => s = false
  end.

Definition is_zero_spec (f : spec_float) : bool :=
  match f with
  | S754_zero _ => true
  | _ => false
  end.

(** The sum of the squares of the components, added up in order. *)
Definition sum_squares (v : vector) : float :=
  fold_left (fun s x => (s + x * x)%float) v 0%float.

(** [dot(u, v)]: the sum of the products of the components, added up in
    order. *)
Definition dot_product (u v : vector) : float :=
  fold_left (fun s xy => (s + fst xy * snd xy)%float) (combine u v) 0%float.

(** [||v||] *)
Definition norm (v : vector) : float := sqrt (sum_squares v).

(** The similarity of the specification on two vectors of one length:
    [dot(u, v) / (||u|| * ||v||)], and [0.0] when either vector has zero
    magnitude.  No error is any part of it. *)
Definition spec_cosine (u v : vector) : float :=
  if ((sum_squares u =? 0) || (sum_squares v =? 0))%float then 0%float
  else (dot_product u v / (norm u * norm v))%float.

(** ** Sample stores and surroundings *)

(** No file at all. *)
Definition no_files : files := empty.

(** A client whose embedding call gives every text the same vector. *)
Definition constant_client (v : vector) : OpenAI :=
  {| embeddings_create := fun _ texts => Py.Return (map (fun _ => v) texts) |}.

(** A client whose embedding call raises. *)
Definition failing_client : OpenAI :=
  {| embeddings_create := fun _ _ => Py.Raise "Connection error." |}.

(** A client that answers every request with the same list of vectors. *)
Definition fixed_client (data : list vector) : OpenAI :=
  {| embeddings_create := fun _ _ => Py.Return data |}.

Definition sample_world (extracted : string) (client : Py.outcome OpenAI)
    : world :=
  {| extract_text_from_pdf := fun _ => extracted;
     uuid4 := "1b4e28ba-2fa1-41d2-883f-0016d3cca427";
     abspath := fun p => ("/srv/" ++ p)%string;
     basename := fun p => p;
     getcwd := Py.Return "/srv";
     new_client := client;
     save_fault := NoFault |}.

Definition sample_document : document :=
  {| document_id := Some "1b4e28ba-2fa1-41d2-883f-0016d3cca427";
     source_path := Some "/srv/a.pdf";
     name := Some "a.pdf";
     chunks :=
       Some [ {| chunk_id := Some "1b4e28ba-2fa1-41d2-883f-0016d3cca427_0";
                 text := Some "Some text.";
                 embedding := Some [1%float] |} ] |}.

Definition sample_store : files :=
  {[ "/srv/database/0/0/rag_vector_db.json" := Json [sample_document] ]}.

Definition ranked_documents : list document :=
  [ {| document_id := Some "d1"; source_path := Some "/srv/a.pdf";
       name := Some "a.pdf";
       chunks :=
         Some [ {| chunk_id := Some "d1_0"; text := Some "north";
                   embedding := Some [0; 1]%float |};
                {| chunk_id := Some "d1_1"; text := Some "east";
                   embedding := Some [1; 0]%float |} ] |};
    {| document_id := Some "d2"; source_path := Some "/srv/b.pdf";
       name := Some "b.pdf";
       chunks :=
         Some [ {| chunk_id := Some "d2_0"; text := Some "east again";
                   embedding := Some [2; 0]%float |} ] |} ].

(** A query and a chunk whose squares overflow: their similarity is NaN. *)
Definition overflow_documents : list document :=
  [ {| document_id := Some "d1"; source_path := Some "/srv/a.pdf";
       name := Some "a.pdf";
       chunks :=
         Some [ {| chunk_id := Some "d1_0"; text := Some "huge";
                   embedding := Some [0x1p+600%float] |};
                {| chunk_id := Some "d1_1"; text := Some "unit";
                   embedding := Some [1%float] |} ] |} ].

(** ** Blank and trimmed strings *)

(** White space only. *)
Definition blank_chars (l : list ascii) : bool := forallb Py.isspace l.

Definition blank (s : string) : bool := blank_chars (list_ascii_of_string s).

(** The first character, if any, is not white space. *)
Definition edge_free (l : list ascii) : bool :=
  match l with
  | [] => true
  | c :: _ => negb (Py.isspace c)
  end.

(** No white space at either end. *)
Definition trimmed (s : string) : bool :=
  edge_free (list_ascii_of_string s)
  && edge_free (rev (list_ascii_of_string s)).

(** ** The parts of a formatted hit *)

(** The snippet [retrieve] shows for the text of a hit. *)
Definition snippet_of (text : string) : string :=
  let snippet := Py.replace_newlines (Py.strip text) in
  if (800 <? String.length snippet)%nat
  then (substring 0 800 snippet ++ "...")%string
  else snippet.

(** The first line of a formatted hit. *)
Definition hit_header (i : Z) (score : float) (source : string) : string :=
  ("[" ++ Py.str_of_int i ++ "] score=" ++ format_4f score ++ " | source="
   ++ source)%string.

(** Whether a string holds a line feed. *)
Definition has_newline (s : string) : bool :=
  existsb (Ascii.eqb "010"%char) (list_ascii_of_string s).

(** ** Paths *)

Definition is_slash (c : ascii) : bool := Ascii.eqb c "/"%char.

(** Whether a path has a last character and it is not a slash. *)
Definition ends_plain (a : string) : bool :=
  match rev (list_ascii_of_string a) with
  | [] => false
  | c :: _ => negb (is_slash c)
  end.

(** The path of the store of a tenant below a root. *)
Definition tenant_file (root : string) (user_id session_id : Z) : string :=
  (root ++ "/" ++ Py.str_of_int user_id ++ "/" ++ Py.str_of_int session_id
   ++ "/rag_vector_db.json")%string.

(** ** Outcomes of the extractors and of the endpoint *)

(** No text: an error, or the empty string. *)
Definition no_text (r : Py.outcome string) : Prop :=
  match r with
  | Py.Return t => t = ""
  | Py.Raise _ => True
  end.

(** The response of [upload_pdf] after a run without an error. *)
Definition upload_success (session_id user_id : Z) : Router.APIResponse :=
  {| Router.session_id := Some session_id;
     Router.user_id := Some user_id;
     Router.response := "PDF file uploaded successfully.";
     Router.error_status := "success" |}.

(** The upload passes the two tests of [upload_pdf] on its type and
    name. *)
Definition accepted (upload : Router.UploadFile) : Prop :=
  Router.content_type upload = Some "application/pdf"
  /\ Router.filename upload <> Some "".

(** The server gets as far as [setup_env()]: the folders are there and
    the upload is written. *)
Definition written (sv : Router.server) : Prop :=
  (exists u, Router.make_folder sv = Py.Return u)
  /\ Router.write_upload sv = Router.WriteOk
  /\ (exists u, Router.make_database sv = Py.Return u).

(** ** Further samples *)

(** The world [w] with another fate of the writes of [save_db]. *)
Definition with_save_fault (w : world) (fault : io_fault) : world :=
  {| extract_text_from_pdf := extract_text_from_pdf w;
     uuid4 := uuid4 w;
     abspath := abspath w;
     basename := basename w;
     getcwd := getcwd w;
     new_client := new_client w;
     save_fault := fault |}.

Definition ranked_store : files :=
  {[ "/srv/database/0/0/rag_vector_db.json" := Json ranked_documents ]}.

(** A server whose folders can be made and whose upload can be written,
    with the given value of [OPENAI_API_KEY]. *)
Definition sample_server (key : string) : Router.server :=
  {| Router.UPDATE_PATH := "/srv/upload";
     Router.DATABASE_PATH := "/srv/database";
     Router.openai_api_key := Py.Return key;
     Router.make_folder := Py.Return tt;
     Router.write_upload := Router.WriteOk;
     Router.make_database := Py.Return tt |}.

Definition sample_upload (content_type : string) : Router.UploadFile :=
  {| Router.content_type := Some content_type;
     Router.filename := Some "a.pdf";
     Router.content := Unreadable |}.

(** * Properties *)

(** ** Strings as lists of characters *)

Lemma length_list_ascii_of_string (s : string) :
  length (list_ascii_of_string s) = String.length s.
Proof. induction s as [|c s IH]; simpl; congruence. Qed.

Lemma list_ascii_of_string_app (s1 s2 : string) :
  list_ascii_of_string (s1 ++ s2)%string =
  list_ascii_of_string s1 ++ list_ascii_of_string s2.
Proof.
  induction s1 as [|c s1 IH]; [reflexivity|].
  change (String c s1 ++ s2)%string with (String c (s1 ++ s2)).
  simpl. congruence.
Qed.

Lemma string_of_list_ascii_app (l1 l2 : list ascii) :
  string_of_list_ascii (l1 ++ l2) =
  (string_of_list_ascii l1 ++ string_of_list_ascii l2)%string.
Proof.
  induction l1 as [|c l1 IH]; [reflexivity|].
  simpl. rewrite IH. reflexivity.
Qed.

Lemma substring_firstn_skipn (s : string) (a c : nat) :
  substring a c s =
  string_of_list_ascii (firstn c (skipn a (list_ascii_of_string s))).
Proof.
  revert a c. induction s as [|ch s IH]; intros a c.
  - destruct a, c; reflexivity.
  - destruct a as [|a].
    + destruct c as [|c]; simpl; [reflexivity|]. now rewrite IH.
    + simpl. apply IH.
Qed.

Lemma truthy_string_of_list_ascii (l : list ascii) :
  Py.truthy (string_of_list_ascii l) = negb (is_nil l).
Proof. destruct l; reflexivity. Qed.

(** ** Slices *)

Lemma slice_inside {A : Type} (l : list A) (a b : Z) :
  0 <= a -> a <= b -> b <= Z.of_nat (length l) ->
  Py.slice l a b = firstn (Z.to_nat b - Z.to_nat a) (skipn (Z.to_nat a) l).
Proof.
  intros Ha Hab Hb. unfold Py.slice, Py.slice_bound.
  destruct (Z.ltb_spec a 0); [lia|]. destruct (Z.ltb_spec b 0); [lia|].
  rewrite !Z.min_l by lia. f_equal. lia.
Qed.

Lemma slice_clamped {A : Type} (l : list A) (a m : Z) :
  0 <= a -> 0 <= m ->
  Py.slice l a (Z.min (a + m) (Z.of_nat (length l))) =
  firstn (Z.to_nat m) (skipn (Z.to_nat a) l).
Proof.
  intros Ha Hm. unfold Py.slice, Py.slice_bound.
  destruct (Z.ltb_spec a 0); [lia|].
  destruct (Z.ltb_spec (Z.min (a + m) (Z.of_nat (length l))) 0); [lia|].
  rewrite (Z.min_l (Z.min _ _) (Z.of_nat (length l))) by lia.
  destruct (Z.le_gt_cases a (Z.of_nat (length l))) as [Hle|Hgt].
  - rewrite (Z.min_l a) by lia.
    destruct (Z.le_gt_cases (a + m) (Z.of_nat (length l))).
    + rewrite Z.min_l by lia. f_equal. lia.
    + rewrite Z.min_r by lia.
      rewrite !firstn_all2; [reflexivity| |]; rewrite length_skipn; lia.
  - rewrite !skipn_all2 by lia. now rewrite !firstn_nil.
Qed.

(** ** The loop of the chunker *)

Section ChunkLoop.
Variables (tokens : list ascii) (max_chars overlap : Z).
Hypothesis max_chars_pos : 0 < max_chars.
Hypothesis overlap_range : 0 <= overlap < max_chars.
Hypothesis tokens_nonempty : tokens <> [].

Let n : Z := Z.of_nat (length tokens).
Let step : Z := max_chars - overlap.
Let last : nat := last_window (length tokens) max_chars overlap.

Lemma last_window_reaches_end : n <= Z.of_nat last * step + max_chars.
Proof using max_chars_pos overlap_range.
  subst n step last. unfold last_window.
  set (a := Z.of_nat (length tokens) - max_chars).
  set (d := max_chars - overlap).
  assert (Hd : 0 < d) by (subst d; lia).
  pose proof (Z.div_mod (a + d - 1) d ltac:(lia)) as Hdm.
  pose proof (Z.mod_pos_bound (a + d - 1) d Hd) as Hr.
  destruct (Z.le_gt_cases 0 ((a + d - 1) / d)) as [Hq|Hq].
  - rewrite Z2Nat.id by lia. nia.
  - replace (Z.to_nat ((a + d - 1) / d)) with 0%nat by lia. simpl. nia.
Qed.

Lemma before_last_window (k : nat) :
  (k < last)%nat -> Z.of_nat k * step + max_chars < n.
Proof using max_chars_pos overlap_range.
  subst n step last. unfold last_window.
  set (a := Z.of_nat (length tokens) - max_chars).
  set (d := max_chars - overlap).
  assert (Hd : 0 < d) by (subst d; lia).
  pose proof (Z.div_mod (a + d - 1) d ltac:(lia)) as Hdm.
  pose proof (Z.mod_pos_bound (a + d - 1) d Hd) as Hr.
  intros Hk.
  assert (Z.of_nat k + 1 <= (a + d - 1) / d) by lia.
  nia.
Qed.

Lemma window_starts_inside (k : nat) :
  (k <= last)%nat -> Z.of_nat k * step < n.
Proof using max_chars_pos overlap_range tokens_nonempty.
  intros Hk. destruct k as [|k].
  - subst n. destruct tokens; [congruence|simpl; lia].
  - pose proof (before_last_window k ltac:(lia)). subst step. nia.
Qed.

Lemma chunk_loop_unfold (fuel : nat) (start : Z) (chunks : list string) :
  chunk_loop (S fuel) tokens max_chars overlap start chunks =
  if start <? n then
    let end_ := Z.min (start + max_chars) n in
    let chunk :=
      Py.strip (string_of_list_ascii (Py.slice tokens start end_)) in
    let chunks' := chunks ++ [chunk] in
    if end_ =? n then Some chunks'
    else chunk_loop fuel tokens max_chars overlap
                    (Z.max 0 (end_ - overlap)) chunks'
  else Some chunks.
Proof. reflexivity. Qed.

(** From the start of window [k], with fuel for the windows left, the
    loop appends the windows [k .. last] and stops. *)
Lemma chunk_loop_windows (fuel k : nat) (acc : list string) :
  (k <= last)%nat -> (last - k < fuel)%nat ->
  chunk_loop fuel tokens max_chars overlap (Z.of_nat k * step) acc =
  Some (acc ++ map (loop_window tokens max_chars overlap) (seq k (S last - k))).
Proof using max_chars_pos overlap_range tokens_nonempty.
  revert k acc. induction fuel as [|fuel IH]; intros k acc Hk Hfuel; [lia|].
  rewrite chunk_loop_unfold. fold n.
  pose proof (window_starts_inside k Hk) as Hin.
  destruct (Z.ltb_spec (Z.of_nat k * step) n) as [_|]; [|lia].
  cbv zeta.
  destruct (Nat.eq_dec k last) as [->|Hne].
  - pose proof last_window_reaches_end as Hend.
    rewrite Z.min_r by lia. rewrite Z.eqb_refl.
    replace (S last - last)%nat with 1%nat by lia. simpl.
    unfold loop_window. fold n. fold step. now rewrite Z.min_r by lia.
  - pose proof (before_last_window k ltac:(lia)) as Hbefore.
    rewrite Z.min_l by lia.
    destruct (Z.eqb_spec (Z.of_nat k * step + max_chars) n) as [|_]; [lia|].
    replace (Z.max 0 (Z.of_nat k * step + max_chars - overlap))
      with (Z.of_nat (S k) * step) by (subst step; nia).
    rewrite IH by lia.
    replace (S last - k)%nat with (S (S last - S k)) by lia.
    simpl seq. simpl map. rewrite <- app_assoc. simpl.
    do 4 f_equal. unfold loop_window. fold n. fold step.
    now rewrite Z.min_l by lia.
Qed.

Lemma last_window_lt_length : (last < length tokens)%nat.
Proof using max_chars_pos overlap_range tokens_nonempty.
  pose proof (window_starts_inside last (Nat.le_refl _)) as H.
  subst n step. nia.
Qed.
End ChunkLoop.

(** ** The chunker against the windows of the specification *)

Lemma loop_window_spec (text : string) (max_chars overlap : Z) (k : nat) :
  0 < max_chars -> 0 <= overlap < max_chars ->
  loop_window (list_ascii_of_string text) max_chars overlap k =
  Py.strip (spec_window text max_chars overlap k).
Proof.
  intros Hm Ho. unfold loop_window, spec_window, window_step.
  rewrite slice_clamped by nia.
  rewrite substring_firstn_skipn. do 4 f_equal. nia.
Qed.

Lemma truthy_nonempty (text : string) : text <> "" -> Py.truthy text = true.
Proof. destruct text; [congruence|reflexivity]. Qed.

Lemma tokens_nonempty (text : string) :
  text <> "" -> list_ascii_of_string text <> [].
Proof. destruct text; [congruence|discriminate]. Qed.

(** With valid parameters the loop ends before its fuel does, and what it
    returns are the trimmed windows of the specification. *)
Lemma chunk_text_fuel_enough (fuel : nat) (text : string)
    (max_chars overlap : Z) :
  0 < max_chars -> 0 <= overlap < max_chars ->
  (last_window (String.length text) max_chars overlap < fuel)%nat ->
  chunk_text_fuel fuel text max_chars overlap =
  Some (List.filter Py.truthy
          (if Py.truthy text
           then map Py.strip (spec_windows text max_chars overlap)
           else [])).
Proof.
  intros Hm Ho Hfuel. unfold chunk_text_fuel.
  destruct (Py.truthy text) eqn:Htext; [|reflexivity].
  assert (Hne : text <> "") by (destruct text; [discriminate|congruence]).
  pose proof (chunk_loop_windows (list_ascii_of_string text) max_chars overlap
                Hm Ho (tokens_nonempty text Hne) fuel 0 []) as Hloop.
  rewrite length_list_ascii_of_string in Hloop.
  rewrite Z.mul_0_l in Hloop. rewrite Hloop by lia.
  rewrite app_nil_l, Nat.sub_0_r. unfold spec_windows. rewrite map_map.
  do 2 f_equal. apply map_ext. intros k. now apply loop_window_spec.
Qed.

Lemma last_window_lt (text : string) (max_chars overlap : Z) :
  text <> "" -> 0 < max_chars -> 0 <= overlap < max_chars ->
  (last_window (String.length text) max_chars overlap < String.length text)%nat.
Proof.
  intros Hne Hm Ho.
  pose proof (last_window_lt_length (list_ascii_of_string text) max_chars
                overlap Hm Ho (tokens_nonempty text Hne)) as H.
  now rewrite length_list_ascii_of_string in H.
Qed.

Lemma last_window_empty (max_chars overlap : Z) :
  0 < max_chars -> 0 <= overlap < max_chars ->
  last_window 0 max_chars overlap = 0%nat.
Proof.
  intros Hm Ho. unfold last_window.
  pose proof (Z.div_lt_upper_bound
                (Z.of_nat 0 - max_chars + (max_chars - overlap) - 1)
                (max_chars - overlap) 1). lia.
Qed.

Lemma chunk_text_spec_windows (text : string) (max_chars overlap : Z) :
  0 < max_chars -> 0 <= overlap < max_chars ->
  chunk_text text max_chars overlap =
  List.filter Py.truthy (map Py.strip (spec_windows text max_chars overlap)).
Proof.
  intros Hm Ho. unfold chunk_text.
  destruct (string_dec text "") as [->|Hne].
  - unfold chunk_text_fuel. simpl Py.truthy. cbv iota.
    unfold spec_windows, spec_window. simpl String.length.
    rewrite last_window_empty by assumption.
    simpl. now destruct (Z.to_nat max_chars).
  - rewrite chunk_text_fuel_enough; auto.
    + now rewrite truthy_nonempty.
    + pose proof (last_window_lt text max_chars overlap Hne Hm Ho). lia.
Qed.

Lemma length_substring_le (s : string) (a c : nat) :
  (String.length (substring a c s) <= c)%nat.
Proof.
  rewrite substring_firstn_skipn, <- length_list_ascii_of_string,
    list_ascii_of_string_of_list_ascii.
  apply firstn_le_length.
Qed.

(** C7.  For a non-empty text and valid parameters, the chunks are the
    trimmed, non-empty windows of the specification, in order: window [k]
    is the text from position [k * (max_chars - overlap)] on, [max_chars]
    characters long at most; every window before the last is [max_chars]
    long and ends inside the text; the last one starts inside the text and
    ends where the text ends. *)
Theorem chunk_text_windows (text : string) (max_chars overlap : Z) :
  text <> "" -> 0 < max_chars -> 0 <= overlap < max_chars ->
  let n := String.length text in
  let step := Z.to_nat (max_chars - overlap) in
  let m := Z.to_nat max_chars in
  let last := last_window n max_chars overlap in
  chunk_text text max_chars overlap =
    List.filter Py.truthy
      (map (fun k => Py.strip (substring (k * step) m text)) (seq 0 (S last)))
  /\ (forall k, String.length (substring (k * step) m text) <= m)%nat
  /\ (forall k, k < last ->
        k * step + m < n /\
        String.length (substring (k * step) m text) = m)%nat
  /\ (last * step < n <= last * step + m)%nat
  /\ substring (last * step) m text =
     substring (last * step) (n - last * step) text.
Proof.
  intros Hne Hm Ho n step m last.
  pose proof (tokens_nonempty text Hne) as Htok.
  pose proof (last_window_reaches_end (list_ascii_of_string text) max_chars
                overlap Hm Ho) as Hend.
  pose proof (window_starts_inside (list_ascii_of_string text) max_chars
                overlap Hm Ho Htok) as Hin.
  pose proof (before_last_window (list_ascii_of_string text) max_chars
                overlap Hm Ho) as Hbefore.
  rewrite length_list_ascii_of_string in Hend, Hin, Hbefore.
  fold n in Hend, Hin, Hbefore. fold last in Hend, Hin, Hbefore.
  assert (Hlast : (last * step < n <= last * step + m)%nat).
  { specialize (Hin last (Nat.le_refl _)). subst step m. nia. }
  split; [|split; [|split; [|split]]].
  - rewrite chunk_text_spec_windows by assumption.
    unfold spec_windows. rewrite map_map. reflexivity.
  - intros k. apply length_substring_le.
  - intros k Hk. specialize (Hbefore k Hk).
    assert (Hlt : (k * step + m < n)%nat) by (subst step m; nia).
    split; [exact Hlt|].
    rewrite substring_firstn_skipn, <- length_list_ascii_of_string,
      list_ascii_of_string_of_list_ascii.
    rewrite length_firstn, length_skipn, length_list_ascii_of_string.
    fold n. lia.
  - exact Hlast.
  - rewrite !substring_firstn_skipn. f_equal.
    rewrite !firstn_all2; [reflexivity| |];
      rewrite length_skipn, length_list_ascii_of_string; fold n; lia.
Qed.

Lemma chunk_text_windows_witness :
  chunk_text " a b  cdefg hij " 5 2 = ["a b"; "b  cd"; "cdefg"; "fg hi"; "hij"]
  /\ last_window 16 5 2 = 4%nat.
Proof.
  split; [|reflexivity].
  destruct (chunk_text_windows " a b  cdefg hij " 5 2) as [H _];
    [discriminate | lia | lia |].
  rewrite H. reflexivity.
Defined.

(** ** The fuel of the chunker *)

Section LoopFuel.
Variables (tokens : list ascii) (max_chars overlap : Z).

Lemma chunk_loop_more_fuel (fuel fuel' : nat) (start : Z)
    (acc r : list string) :
  chunk_loop fuel tokens max_chars overlap start acc = Some r ->
  (fuel <= fuel')%nat ->
  chunk_loop fuel' tokens max_chars overlap start acc = Some r.
Proof.
  revert fuel' start acc. induction fuel as [|fuel IH];
    intros fuel' start acc Hrun Hle; [discriminate|].
  destruct fuel' as [|fuel']; [lia|].
  simpl in Hrun |- *.
  destruct (start <? Z.of_nat (length tokens)); [|exact Hrun].
  destruct (Z.min (start + max_chars) (Z.of_nat (length tokens))
            =? Z.of_nat (length tokens)); [exact Hrun|].
  apply IH; [exact Hrun|lia].
Qed.

Lemma chunk_loop_loop_tests (fuel : nat) (start : Z) (acc : list string) :
  is_Some (chunk_loop fuel tokens max_chars overlap start acc) <->
  is_Some (loop_tests fuel (Z.of_nat (length tokens)) max_chars overlap start).
Proof.
  revert start acc. induction fuel as [|fuel IH]; intros start acc; simpl.
  - split; intros [? ?]; discriminate.
  - destruct (start <? Z.of_nat (length tokens)); [|split; eauto].
    destruct (Z.min (start + max_chars) (Z.of_nat (length tokens))
              =? Z.of_nat (length tokens)); [split; eauto|].
    rewrite IH. rewrite fmap_is_Some. reflexivity.
Qed.

Lemma loop_tests_positive (fuel : nat) (n start : Z) (k : nat) :
  loop_tests fuel n max_chars overlap start = Some k -> (1 <= k)%nat.
Proof.
  destruct fuel as [|fuel]; [discriminate|]. simpl.
  destruct (start <? n); [|intros [= <-]; lia].
  destruct (Z.min (start + max_chars) n =? n); [intros [= <-]; lia|].
  destruct (loop_tests fuel n max_chars overlap _); simpl;
    [intros [= <-]; lia|discriminate].
Qed.

Lemma loop_tests_more_fuel (fuel fuel' : nat) (n start : Z) (k : nat) :
  loop_tests fuel n max_chars overlap start = Some k ->
  (k <= fuel')%nat ->
  loop_tests fuel' n max_chars overlap start = Some k.
Proof.
  revert fuel' start k. induction fuel as [|fuel IH];
    intros fuel' start k Hrun Hle; [discriminate|].
  pose proof (loop_tests_positive _ _ _ _ Hrun) as Hk.
  simpl in Hrun. destruct fuel' as [|fuel']; [lia|]. simpl.
  destruct (start <? n); [|exact Hrun].
  destruct (Z.min (start + max_chars) n =? n); [exact Hrun|].
  destruct (loop_tests fuel n max_chars overlap _) as [k'|] eqn:Hnext;
    simpl in Hrun; [|discriminate].
  injection Hrun as <-. rewrite (IH fuel' _ k' Hnext); [reflexivity|lia].
Qed.

Lemma loop_tests_unique (fuel1 fuel2 : nat) (n start : Z) (k1 k2 : nat) :
  loop_tests fuel1 n max_chars overlap start = Some k1 ->
  loop_tests fuel2 n max_chars overlap start = Some k2 ->
  k1 = k2.
Proof.
  intros H1 H2.
  apply (loop_tests_more_fuel _ (Nat.max k1 k2)) in H1; [|lia].
  apply (loop_tests_more_fuel _ (Nat.max k1 k2)) in H2; [|lia].
  congruence.
Qed.

(** The positions a run continues from: they lie inside the text, and
    from the one at index [i] the run has [i] tests fewer to make. *)
Lemma loop_tests_trajectory (fuel : nat) (n start : Z) (k : nat) :
  0 <= start ->
  loop_tests fuel n max_chars overlap start = Some k ->
  exists traj : list Z,
    length traj = Nat.pred k /\
    forall (i : nat) (v : Z),
      traj !! i = Some v ->
      0 <= v < n /\
      exists fuel', loop_tests fuel' n max_chars overlap v = Some (k - i)%nat.
Proof.
  revert start k. induction fuel as [|fuel IH]; intros start k Hstart Hrun;
    [discriminate|].
  simpl in Hrun. destruct (Z.ltb_spec start n) as [Hlt|Hge].
  - destruct (Z.min (start + max_chars) n =? n) eqn:Hend.
    + injection Hrun as <-. exists []. split; [reflexivity|].
      intros i v Hi. destruct i; discriminate.
    + destruct (loop_tests fuel n max_chars overlap _) as [k'|] eqn:Hnext;
        simpl in Hrun; [|discriminate].
      injection Hrun as <-.
      destruct (IH _ k' (Z.le_max_l 0 _) Hnext) as (traj & Hlen & Htraj).
      pose proof (loop_tests_positive _ _ _ _ Hnext) as Hk'.
      exists (start :: traj). split; [simpl; lia|].
      intros [|i] v Hi; simpl in Hi.
      * injection Hi as <-. split; [lia|]. exists (S fuel). simpl.
        destruct (Z.ltb_spec start n); [|lia].
        now rewrite Hend, Hnext.
      * apply Htraj in Hi as [Hv [fuel' Hfuel']]. split; [exact Hv|].
        exists fuel'. exact Hfuel'.
  - injection Hrun as <-. exists []. split; [reflexivity|].
    intros i v Hi. destruct i; discriminate.
Qed.

Lemma bounded_NoDup_length (l : list Z) (n : nat) :
  NoDup l -> Forall (fun v => 0 <= v < Z.of_nat n) l -> (length l <= n)%nat.
Proof.
  intros Hnodup Hrange.
  rewrite <- (length_seq n 0), <- (length_map Z.to_nat l).
  apply NoDup_incl_length.
  - apply NoDup_ListNoDup. apply NoDup_fmap_2_strong; [|exact Hnodup].
    rewrite Forall_forall in Hrange. intros x y Hx Hy Hxy.
    apply Hrange in Hx, Hy. lia.
  - intros v Hv. apply in_map_iff in Hv as (z & <- & Hz).
    rewrite Forall_forall in Hrange. apply list_elem_of_In, Hrange in Hz.
    apply in_seq. lia.
Qed.

(** A run from the start of the text that ends tests the loop condition
    no more than [len(text) + 1] times. *)
Lemma loop_tests_bound (fuel k : nat) :
  loop_tests fuel (Z.of_nat (length tokens)) max_chars overlap 0 = Some k ->
  (k <= S (length tokens))%nat.
Proof.
  intros Hrun.
  destruct (loop_tests_trajectory _ _ _ _ (Z.le_refl 0) Hrun)
    as (traj & Hlen & Htraj).
  assert (Hbound : (length traj <= length tokens)%nat).
  { apply bounded_NoDup_length.
    - apply NoDup_alt. intros i j v Hi Hj.
      pose proof (lookup_lt_Some _ _ _ Hi) as Hilt.
      pose proof (lookup_lt_Some _ _ _ Hj) as Hjlt.
      apply Htraj in Hi as [_ [f1 H1]]. apply Htraj in Hj as [_ [f2 H2]].
      pose proof (loop_tests_unique _ _ _ _ _ _ H1 H2). lia.
    - apply Forall_forall. intros v Hv.
      apply list_elem_of_lookup in Hv as [i Hi]. now apply Htraj in Hi. }
  lia.
Qed.
End LoopFuel.

(** Whatever the parameters, a run of the loop that ends within some fuel
    ends within the fuel [chunk_text] gives it, with the same chunks. *)
Lemma chunk_text_fuel_exact (fuel : nat) (text : string)
    (max_chars overlap : Z) (r : list string) :
  chunk_text_fuel fuel text max_chars overlap = Some r ->
  chunk_text text max_chars overlap = r.
Proof.
  unfold chunk_text, chunk_text_fuel.
  destruct (Py.truthy text); [|now intros [= <-]].
  destruct (chunk_loop fuel _ _ _ 0 []) as [c|] eqn:Hrun; [|discriminate].
  intros [= <-].
  assert (Hsome : is_Some (loop_tests fuel
                    (Z.of_nat (length (list_ascii_of_string text)))
                    max_chars overlap 0))
    by (apply (chunk_loop_loop_tests _ _ _ _ _ []); rewrite Hrun; eauto).
  destruct Hsome as [k Hk].
  pose proof (loop_tests_bound _ _ _ _ _ Hk) as Hbound.
  rewrite length_list_ascii_of_string in Hbound.
  apply (loop_tests_more_fuel _ _ _ (S (String.length text))) in Hk;
    [|exact Hbound].
  assert (Hsome : is_Some (chunk_loop (S (String.length text))
                    (list_ascii_of_string text) max_chars overlap 0 []))
    by (apply chunk_loop_loop_tests; rewrite Hk; eauto).
  destruct Hsome as [c' Hc'].
  rewrite Hc'.
  apply (chunk_loop_more_fuel _ _ _ _ (Nat.max fuel (S (String.length text))))
    in Hrun; [|lia].
  apply (chunk_loop_more_fuel _ _ _ _ (Nat.max fuel (S (String.length text))))
    in Hc'; [|lia].
  congruence.
Qed.

(** ** Coverage *)

Lemma drop_overlap_spec_window (text : string) (max_chars overlap : Z)
    (k : nat) :
  0 < max_chars -> 0 <= overlap < max_chars ->
  list_ascii_of_string
    (drop_overlap overlap (spec_window text max_chars overlap (S k))) =
  firstn (window_step max_chars overlap)
    (skipn (k * window_step max_chars overlap + Z.to_nat max_chars)
       (list_ascii_of_string text)).
Proof.
  intros Hm Ho. unfold drop_overlap, spec_window, Py.slice_from, Py.slice_bound.
  rewrite list_ascii_of_string_of_list_ascii, substring_firstn_skipn,
    list_ascii_of_string_of_list_ascii.
  destruct (Z.ltb_spec overlap 0); [lia|].
  set (l := list_ascii_of_string text).
  set (w := firstn _ _).
  replace (skipn (Z.to_nat (Z.min overlap (Z.of_nat (length w)))) w)
    with (skipn (Z.to_nat overlap) w).
  - subst w. rewrite skipn_firstn_comm, skipn_skipn. unfold window_step.
    f_equal; [lia|]. f_equal. lia.
  - destruct (Z.le_gt_cases overlap (Z.of_nat (length w))).
    + now rewrite Z.min_l by lia.
    + rewrite Z.min_r by lia. rewrite !skipn_all2; [reflexivity|lia|lia].
Qed.

(** The windows up to window [j], put end to end without the overlaps,
    are the text up to the end of window [j]. *)
Lemma reconstruct_prefix (text : string) (max_chars overlap : Z) (j : nat) :
  0 < max_chars -> 0 <= overlap < max_chars ->
  list_ascii_of_string
    (reconstruct overlap
       (map (spec_window text max_chars overlap) (seq 0 (S j)))) =
  firstn (j * window_step max_chars overlap + Z.to_nat max_chars)
    (list_ascii_of_string text).
Proof.
  intros Hm Ho.
  change (reconstruct overlap
            (map (spec_window text max_chars overlap) (seq 0 (S j))))
    with (fold_left (fun acc c' => (acc ++ drop_overlap overlap c')%string)
            (map (spec_window text max_chars overlap) (seq 1 j))
            (spec_window text max_chars overlap 0)).
  induction j as [|j IH].
  - simpl. unfold spec_window.
    now rewrite substring_firstn_skipn, list_ascii_of_string_of_list_ascii.
  - rewrite seq_S, map_app, fold_left_app. simpl.
    rewrite list_ascii_of_string_app, IH, drop_overlap_spec_window by assumption.
    rewrite take_take_drop. f_equal. unfold window_step. lia.
Qed.

Lemma reconstruct_spec_windows (text : string) (max_chars overlap : Z) :
  0 < max_chars -> 0 <= overlap < max_chars ->
  reconstruct overlap (spec_windows text max_chars overlap) = text.
Proof.
  intros Hm Ho.
  rewrite <- (string_of_list_ascii_of_string (reconstruct _ _)).
  rewrite <- (string_of_list_ascii_of_string text) at 2. f_equal.
  unfold spec_windows. rewrite reconstruct_prefix by assumption.
  apply firstn_all2. rewrite length_list_ascii_of_string.
  destruct (string_dec text "") as [->|Hne]; [simpl; lia|].
  pose proof (last_window_reaches_end (list_ascii_of_string text) max_chars
                overlap Hm Ho) as Hend.
  rewrite length_list_ascii_of_string in Hend. unfold window_step. nia.
Qed.

Lemma spec_window_nonempty (text : string) (max_chars overlap : Z) (k : nat) :
  text <> "" -> 0 < max_chars -> 0 <= overlap < max_chars ->
  (k <= last_window (String.length text) max_chars overlap)%nat ->
  Py.truthy (spec_window text max_chars overlap k) = true.
Proof.
  intros Hne Hm Ho Hk.
  pose proof (window_starts_inside (list_ascii_of_string text) max_chars
                overlap Hm Ho (tokens_nonempty text Hne) k) as Hin.
  rewrite length_list_ascii_of_string in Hin. specialize (Hin Hk).
  unfold spec_window. rewrite substring_firstn_skipn, truthy_string_of_list_ascii.
  set (l := firstn _ _). assert (Hlen : (0 < length l)%nat).
  { subst l. rewrite length_firstn, length_skipn, length_list_ascii_of_string.
    unfold window_step. nia. }
  now destruct l; [simpl in Hlen; lia|].
Qed.

(** C2, as the code has it.  With valid parameters the windows the chunker
    cuts, before it trims them, put end to end without the overlaps are the
    text; the chunks are these windows trimmed, the empty ones left out;
    so the chunks rebuild the text whenever trimming changes no window. *)
Theorem chunk_coverage_untrimmed (text : string) (max_chars overlap : Z) :
  0 < max_chars -> 0 <= overlap < max_chars ->
  let windows := spec_windows text max_chars overlap in
  reconstruct overlap windows = text
  /\ chunk_text text max_chars overlap =
       List.filter Py.truthy (map Py.strip windows)
  /\ (Forall trim_free windows ->
      reconstruct overlap (chunk_text text max_chars overlap) = text).
Proof.
  intros Hm Ho windows. split; [|split].
  - now apply reconstruct_spec_windows.
  - now apply chunk_text_spec_windows.
  - intros Hfree. rewrite chunk_text_spec_windows by assumption. fold windows.
    destruct (string_dec text "") as [->|Hne].
    + subst windows. unfold spec_windows, spec_window. simpl String.length.
      rewrite last_window_empty by assumption.
      simpl. now destruct (Z.to_nat max_chars).
    + replace (map Py.strip windows) with windows.
      * replace (List.filter Py.truthy windows) with windows;
          [now apply reconstruct_spec_windows|].
        symmetry. apply forallb_filter_id. apply forallb_forall.
        intros w Hw. subst windows. unfold spec_windows in Hw.
        apply in_map_iff in Hw as (k & <- & Hk). apply in_seq in Hk.
        apply spec_window_nonempty; auto. lia.
      * rewrite <- (map_id windows) at 1. apply map_ext_Forall.
        eapply List.Forall_impl; [|exact Hfree]. intros w Hw. now rewrite Hw.
Qed.

Lemma chunk_coverage_untrimmed_witness :
  reconstruct 1 (chunk_text "abcdefgh" 3 1) = "abcdefgh".
Proof.
  apply (chunk_coverage_untrimmed "abcdefgh" 3 1); [lia|lia|].
  repeat constructor.
Defined.

(** Counterexample for C2 as the specification words it: trimming removes white space
    at the edge of a window, and then the overlap no longer lines up. *)
Lemma chunk_coverage_counterexample :
  0 < 3 /\ 0 <= 1 < 3 /\
  chunk_text "ab cd" 3 1 = ["ab"; "cd"] /\
  reconstruct 1 (chunk_text "ab cd" 3 1) = "abd" /\
  reconstruct 1 (chunk_text "ab cd" 3 1) <> "ab cd".
Proof. repeat split; try lia; discriminate. Qed.

(** ** Ingestion *)

Lemma is_nil_true {A : Type} (l : list A) : is_nil l = true <-> l = [].
Proof. destruct l; simpl; split; congruence. Qed.

Lemma is_nil_false {A : Type} (l : list A) : is_nil l = false <-> l <> [].
Proof. destruct l; simpl; split; congruence. Qed.

Lemma truthy_false (s : string) : Py.truthy s = false <-> s = "".
Proof. destruct s; simpl; split; congruence. Qed.

(** C1.  Whatever the files hold, when the extracted text is empty, or no
    chunk comes out of it, or the embedding fails (an empty result) or
    yields a number of vectors that is not the number of chunks, ingestion
    returns [None] and the files are what they were. *)
Theorem ingest_failure_no_write (w : world) (fs : files)
    (pdf_path db_path : string) (client : OpenAI) :
  let raw_text := extract_text_from_pdf w pdf_path in
  let chunks := chunk_text raw_text 1200 150 in
  let vectors := embed_texts client chunks default_model in
  raw_text = "" \/ chunks = [] \/ vectors = []
    \/ length vectors <> length chunks ->
  ingest_pdf_to_db w fs pdf_path db_path client = (None, fs).
Proof.
  intros raw_text chunks vectors Hfail. unfold ingest_pdf_to_db.
  fold raw_text. fold chunks. fold vectors.
  destruct (Py.truthy raw_text) eqn:Hraw; [|reflexivity]. simpl negb. cbv iota.
  destruct (is_nil chunks) eqn:Hchunks; [reflexivity|].
  destruct (is_nil vectors) eqn:Hvectors; [reflexivity|]. simpl orb.
  destruct (Nat.eqb_spec (length vectors) (length chunks)) as [Hlen|Hlen];
    [|reflexivity].
  exfalso. destruct Hfail as [H|[H|[H|H]]].
  - apply truthy_false in H. congruence.
  - apply is_nil_true in H. congruence.
  - apply is_nil_true in H. congruence.
  - contradiction.
Qed.

Lemma enumerate_lookup {A : Type} (l : list A) (start : Z) (i : nat) :
  Py.enumerate start l !! i = pair (start + Z.of_nat i) <$> l !! i.
Proof.
  revert start i. induction l as [|x l IH]; intros start i; [now destruct i|].
  destruct i as [|i]; simpl.
  - now rewrite Z.add_0_r.
  - rewrite IH. destruct (l !! i); simpl; [|reflexivity].
    do 2 f_equal. lia.
Qed.

Lemma length_enumerate {A : Type} (l : list A) (start : Z) :
  length (Py.enumerate start l) = length l.
Proof. revert start. induction l; intros; simpl; auto. Qed.

Lemma combine_lookup {A B : Type} (l1 : list A) (l2 : list B) (i : nat) :
  combine l1 l2 !! i =
  match l1 !! i, l2 !! i with
  | Some a, Some b => Some (a, b)
  | _, _ => None
  end.
Proof.
  revert l2 i. induction l1 as [|a l1 IH]; intros [|b l2] [|i]; simpl; auto.
  all: now destruct (l1 !! i).
Qed.

Lemma make_chunks_lookup (doc_id : string) (chunks : list string)
    (vectors : list vector) (i : nat) :
  make_chunks doc_id chunks vectors !! i =
  match chunks !! i, vectors !! i with
  | Some ch, Some vec =>
      Some {| chunk_id := Some (doc_id ++ "_" ++ Py.str_of_int (Z.of_nat i))%string;
              text := Some ch;
              embedding := Some vec |}
  | _, _ => None
  end.
Proof.
  unfold make_chunks. rewrite list_lookup_fmap, enumerate_lookup, combine_lookup.
  destruct (chunks !! i), (vectors !! i); reflexivity.
Qed.

Lemma length_make_chunks (doc_id : string) (chunks : list string)
    (vectors : list vector) :
  length (make_chunks doc_id chunks vectors) =
  Nat.min (length chunks) (length vectors).
Proof.
  unfold make_chunks. now rewrite length_map, length_enumerate, length_combine.
Qed.

Lemma save_db_lookup (fs : files) (db_path : string) (data : list document) :
  save_db NoFault fs db_path data !! db_path = Some (Json data).
Proof.
  unfold save_db, os_replace. rewrite lookup_insert_eq. apply lookup_insert_eq.
Qed.

(** C6.  When ingestion returns the identifier [d], the document it hands
    to the store carries [d], has as many chunks as the chunker produced
    and as the embedding returned, pairs chunk [i] with vector [i], and
    names it [d_i]; when the write goes through, the stored documents are
    the former ones followed by this document. *)
Theorem ingest_success_document (w : world) (fs fs' : files)
    (pdf_path db_path : string) (client : OpenAI) (d : string) :
  ingest_pdf_to_db w fs pdf_path db_path client = (Some d, fs') ->
  let produced := chunk_text (extract_text_from_pdf w pdf_path) 1200 150 in
  let vectors := embed_texts client produced default_model in
  exists (record : document) (cs : list chunk),
    fs' = save_db (save_fault w) fs db_path (load_db fs db_path ++ [record])
    /\ (save_fault w = NoFault ->
        load_db fs' db_path = load_db fs db_path ++ [record])
    /\ document_id record = Some d
    /\ chunks record = Some cs
    /\ length cs = length produced
    /\ length cs = length vectors
    /\ forall (i : nat) (c : chunk),
         cs !! i = Some c <->
         exists (ch : string) (vec : vector),
           produced !! i = Some ch /\ vectors !! i = Some vec /\
           c = {| chunk_id := Some (d ++ "_" ++ Py.str_of_int (Z.of_nat i))%string;
                  text := Some ch;
                  embedding := Some vec |}.
Proof.
  intros Hrun produced vectors. unfold ingest_pdf_to_db in Hrun.
  fold produced in Hrun. fold vectors in Hrun.
  destruct (negb _); [discriminate|].
  destruct (is_nil produced); [discriminate|].
  destruct (is_nil vectors); [discriminate|]. simpl orb in Hrun.
  destruct (Nat.eqb_spec (length vectors) (length produced)) as [Hlen|];
    [|discriminate].
  simpl negb in Hrun. cbv iota in Hrun.
  injection Hrun as Hd Hfs. subst d.
  eexists; eexists. split; [symmetry; exact Hfs|].
  split; [|split; [reflexivity|split; [reflexivity|split; [|split]]]].
  - intros Hok. subst fs'. rewrite Hok. unfold load_db at 1.
    now rewrite save_db_lookup.
  - rewrite length_make_chunks. lia.
  - rewrite length_make_chunks. lia.
  - intros i c. rewrite make_chunks_lookup. split.
    + destruct (produced !! i) as [ch|], (vectors !! i) as [vec|];
        try discriminate.
      intros [= <-]. now exists ch, vec.
    + intros (ch & vec & -> & -> & ->). reflexivity.
Qed.

Lemma ingest_failure_no_write_witness :
  ingest_pdf_to_db (sample_world "Some text." (Py.Return failing_client))
    no_files "a.pdf" "/srv/db.json" failing_client = (None, no_files).
Proof.
  apply (ingest_failure_no_write
           (sample_world "Some text." (Py.Return failing_client)) no_files
           "a.pdf" "/srv/db.json" failing_client).
  right. right. left. reflexivity.
Defined.

Lemma ingest_success_document_witness :
  let w := sample_world "Some text." (Py.Return (constant_client [1%float])) in
  let run :=
    ingest_pdf_to_db w no_files "a.pdf" "/srv/db.json" (constant_client [1%float]) in
  exists (record : document) (cs : list chunk),
    run.2 = save_db NoFault no_files "/srv/db.json" [record]
    /\ document_id record = Some (uuid4 w)
    /\ chunks record = Some cs
    /\ cs !! 0%nat =
       Some {| chunk_id := Some "1b4e28ba-2fa1-41d2-883f-0016d3cca427_0";
               text := Some "Some text.";
               embedding := Some [1%float] |}.
Proof.
  intros w run.
  destruct (ingest_success_document w no_files run.2 "a.pdf" "/srv/db.json"
              (constant_client [1%float]) (uuid4 w) eq_refl)
    as (record & cs & Hfs & _ & Hid & Hcs & _ & _ & Hlookup).
  exists record, cs. repeat split; try assumption.
  apply Hlookup. exists "Some text.", [1%float]. repeat split.
Defined.

(** ** The embedding adapter *)

(** C3, as the code has it.  For a non-empty list of texts, [embed_texts]
    returns the empty list when the provider call raises and otherwise the
    provider's vectors, in the provider's order and whatever their number:
    it has one vector per text exactly when the provider's answer has. *)
Theorem embed_texts_result (client : OpenAI) (texts : list string)
    (model : string) :
  texts <> [] ->
  match embeddings_create client model texts with
  | Py.Raise _ => embed_texts client texts model = []
  | Py.Return data =>
      embed_texts client texts model = data
      /\ (length (embed_texts client texts model) = length texts <->
          length data = length texts)
  end.
Proof.
  intros Hne. unfold embed_texts.
  apply is_nil_false in Hne. rewrite Hne.
  destruct (embeddings_create client model texts); [|reflexivity].
  split; [reflexivity|tauto].
Qed.

Lemma embed_texts_result_witness :
  embed_texts (constant_client [1%float]) ["a"; "b"] default_model =
  [[1%float]; [1%float]].
Proof.
  apply (embed_texts_result (constant_client [1%float]) ["a"; "b"]
           default_model).
  discriminate.
Defined.

(** Counterexample for C3 as the specification words it: a provider that answers two
    texts with one vector makes [embed_texts] return a list that is neither
    the failure value nor as long as its input. *)
Lemma embed_texts_counterexample :
  let out := embed_texts (fixed_client [[1%float]]) ["a"; "b"] default_model in
  ["a"; "b"] <> ([] : list string)
  /\ out <> []
  /\ length out <> length ["a"; "b"].
Proof. repeat split; discriminate. Qed.

(** ** The retrieve tool *)

(** C9.  [retrieve] returns a string for every input: either the string
    its [try] block returns, or, when the block raises an error [e], the
    string ["[retrieve tool error] e"]. *)
Theorem retrieve_never_raises (w : world) (fs : files) (query : query_arg)
    (user_id session_id top_k : Z) (db_path : option string) :
  exists s : string,
    retrieve w fs query user_id session_id top_k db_path = Py.Return s
    /\ match retrieve_try w fs query user_id session_id top_k db_path with
       | Py.Return r => s = r
       | Py.Raise e => s = ("[retrieve tool error] " ++ e)%string
       end.
Proof.
  unfold retrieve.
  destruct (retrieve_try w fs query user_id session_id top_k db_path)
    as [r|e]; eexists; split; reflexivity.
Qed.

(** The path on which the block raises is a real one: the client cannot be
    built. *)
Example retrieve_client_error :
  retrieve (sample_world "" (Py.Raise "The api_key client option must be set"))
    no_files (Str "what is a chunk?") 0 0 5 None =
  Py.Return "[retrieve tool error] The api_key client option must be set".
Proof. reflexivity. Qed.

Lemma search_db_embedding_failure (fs : files) (db_path : string)
    (client : OpenAI) (query : string) (top_k : Z) :
  embed_texts client [query] default_model = [] ->
  search_db fs db_path client query top_k = [].
Proof.
  intros Hfail. unfold search_db. rewrite Hfail. now destruct (is_nil _).
Qed.

Lemma search_db_empty_store (fs : files) (db_path : string)
    (client : OpenAI) (query : string) (top_k : Z) :
  load_db fs db_path = [] ->
  search_db fs db_path client query top_k = [].
Proof. intros Hempty. unfold search_db. now rewrite Hempty. Qed.

(** C4, as the code has it.  When the embedding of the query fails,
    [search_db] returns the empty list and [retrieve] returns the
    "No results found" message for the tenant, which is also what it
    returns for the same request on a store without documents. *)
Theorem retrieve_query_embedding_failure (w : world) (fs fs0 : files)
    (client : OpenAI) (query : string) (user_id session_id top_k : Z)
    (db_path : option string) :
  query <> "" ->
  get_openai_client w = Py.Return client ->
  embed_texts client [query] default_model = [] ->
  load_db fs0 (get_user_db_path w user_id session_id db_path) = [] ->
  search_db fs (get_user_db_path w user_id session_id db_path) client
    query top_k = []
  /\ retrieve w fs (Str query) user_id session_id top_k db_path =
     Py.Return (no_results user_id session_id)
  /\ retrieve w fs0 (Str query) user_id session_id top_k db_path =
     retrieve w fs (Str query) user_id session_id top_k db_path.
Proof.
  intros Hq Hclient Hfail Hempty.
  pose proof (search_db_embedding_failure fs
                (get_user_db_path w user_id session_id db_path) client query
                top_k Hfail) as Hsearch.
  pose proof (search_db_empty_store fs0
                (get_user_db_path w user_id session_id db_path) client query
                top_k Hempty) as Hsearch0.
  unfold retrieve, retrieve_try.
  rewrite (truthy_nonempty query Hq), Hclient, Hsearch, Hsearch0.
  repeat split.
Qed.

Lemma retrieve_query_embedding_failure_witness :
  retrieve (sample_world "" (Py.Return failing_client)) sample_store
    (Str "what is a chunk?") 0 0 5 None =
  Py.Return
    "No results found in the knowledge base for user 0, session 0. Please upload a PDF document first.".
Proof.
  apply (retrieve_query_embedding_failure
           (sample_world "" (Py.Return failing_client)) sample_store no_files
           failing_client "what is a chunk?" 0 0 5 None);
    [discriminate | reflexivity | reflexivity | vm_compute; reflexivity].
Defined.

(** Counterexample for C4 as the specification words it: with a failing embedding of
    the query on a store that holds a document, [retrieve] returns the very
    string it returns on a store that holds none, and [search_db] the very
    list. *)
Lemma retrieve_query_embedding_counterexample :
  let w := sample_world "" (Py.Return failing_client) in
  let path := get_user_db_path w 0 0 None in
  embed_texts failing_client ["what is a chunk?"] default_model = []
  /\ load_db sample_store path = [sample_document]
  /\ load_db no_files path = []
  /\ search_db sample_store path failing_client "what is a chunk?" 5 =
     search_db no_files path failing_client "what is a chunk?" 5
  /\ retrieve w sample_store (Str "what is a chunk?") 0 0 5 None =
     retrieve w no_files (Str "what is a chunk?") 0 0 5 None.
Proof. vm_compute. repeat split. Qed.

(** ** Similarity over vectors of different lengths *)

Lemma combine_common_prefix {A B : Type} (a : list A) (b : list B) :
  combine a b =
  combine (firstn (Nat.min (length a) (length b)) a)
          (firstn (Nat.min (length a) (length b)) b).
Proof.
  rewrite <- combine_firstn. symmetry. apply firstn_all2.
  rewrite length_combine. lia.
Qed.

Lemma map_flat_map {A B C : Type} (g : B -> C) (f : A -> list B)
    (l : list A) :
  map g (flat_map f l) = flat_map (fun x => map g (f x)) l.
Proof.
  induction l as [|x l IH]; [reflexivity|].
  simpl. now rewrite map_app, IH.
Qed.

Lemma scores_of_stored_embeddings (q : vector) (docs : list document) :
  map score (score_chunks q docs) =
  map (cosine_similarity q) (stored_embeddings docs).
Proof.
  unfold score_chunks, stored_embeddings.
  rewrite !map_flat_map. apply flat_map_ext. intros doc.
  now rewrite !map_map.
Qed.

(** ** The order of the floats *)

Lemma SFcompare_float_key (f g : spec_float) :
  f <> S754_nan -> g <> S754_nan ->
  SFcompare f g = Some (lex_compare (float_key f) (float_key g)).
Proof.
  intros Hf Hg.
  destruct f as [sf|sf| |sf mf ef], g as [sg|sg| |sg mg eg];
    try congruence; try (destruct sf); try (destruct sg); try reflexivity.
  simpl. rewrite Z.compare_opp, (Z.compare_antisym ef eg).
  destruct (ef ?= eg); reflexivity.
Qed.

Lemma lex_compare_Lt (a b : Z * Z * Z) :
  lex_compare a b = Lt <->
  a.1.1 < b.1.1 \/
  (a.1.1 = b.1.1 /\ (a.1.2 < b.1.2 \/ (a.1.2 = b.1.2 /\ a.2 < b.2))).
Proof.
  destruct a as [[a1 a2] a3], b as [[b1 b2] b3]. simpl.
  destruct (Z.compare_spec a1 b1), (Z.compare_spec a2 b2),
    (Z.compare_spec a3 b3); split; intros; try discriminate; try lia;
    reflexivity.
Qed.

Lemma lex_compare_Eq (a b : Z * Z * Z) : lex_compare a b = Eq <-> a = b.
Proof.
  destruct a as [[a1 a2] a3], b as [[b1 b2] b3]. simpl.
  destruct (Z.compare_spec a1 b1), (Z.compare_spec a2 b2),
    (Z.compare_spec a3 b3); split; intros Hab; try discriminate;
    try (injection Hab; lia); subst; reflexivity.
Qed.

Lemma lex_compare_Gt (a b : Z * Z * Z) :
  lex_compare a b = Gt <-> lex_compare b a = Lt.
Proof.
  rewrite lex_compare_Lt.
  destruct a as [[a1 a2] a3], b as [[b1 b2] b3]. simpl.
  destruct (Z.compare_spec a1 b1), (Z.compare_spec a2 b2),
    (Z.compare_spec a3 b3); split; intros; try discriminate; try lia;
    reflexivity.
Qed.

Lemma not_nan_Prim2SF (x : float) :
  is_nan x = false -> Prim2SF x <> S754_nan.
Proof.
  unfold is_nan. rewrite FloatAxioms.eqb_spec. intros H E. rewrite E in H. discriminate.
Qed.

Section FloatOrder.
Variables x y z : float.
Hypothesis x_number : is_nan x = false.
Hypothesis y_number : is_nan y = false.
Hypothesis z_number : is_nan z = false.

Lemma float_ltb_key :
  (x <? y)%float = true <->
  lex_compare (float_key (Prim2SF x)) (float_key (Prim2SF y)) = Lt.
Proof using x_number y_number.
  rewrite FloatAxioms.ltb_spec. unfold SFltb.
  rewrite SFcompare_float_key by now apply not_nan_Prim2SF.
  destruct (lex_compare _ _); split; congruence.
Qed.

Lemma float_ltb_false_key :
  (x <? y)%float = false <->
  lex_compare (float_key (Prim2SF x)) (float_key (Prim2SF y)) <> Lt.
Proof using x_number y_number.
  rewrite <- float_ltb_key. now destruct (x <? y)%float.
Qed.
End FloatOrder.

Lemma float_ltb_irrefl (x : float) : (x <? x)%float = false.
Proof.
  rewrite FloatAxioms.ltb_spec. unfold SFltb.
  destruct (Prim2SF x) as [s|s| |s m e]; try reflexivity;
    try (now destruct s).
  simpl. destruct s; rewrite Z.compare_refl, Pos.compare_cont_refl; reflexivity.
Qed.

Lemma float_ltb_trans (x y z : float) :
  is_nan x = false -> is_nan y = false -> is_nan z = false ->
  (x <? y)%float = true -> (y <? z)%float = true -> (x <? z)%float = true.
Proof.
  intros Hx Hy Hz. rewrite !float_ltb_key, !lex_compare_Lt by assumption. lia.
Qed.

Lemma float_ltb_negtrans (x y z : float) :
  is_nan x = false -> is_nan y = false -> is_nan z = false ->
  (x <? y)%float = false -> (y <? z)%float = false -> (x <? z)%float = false.
Proof.
  intros Hx Hy Hz.
  rewrite !float_ltb_false_key, !lex_compare_Lt by assumption. lia.
Qed.

Lemma float_leb_ltb (x y : float) :
  is_nan x = false -> is_nan y = false ->
  (x <=? y)%float = negb (y <? x)%float.
Proof.
  intros Hx Hy. rewrite FloatAxioms.leb_spec, FloatAxioms.ltb_spec. unfold SFleb, SFltb.
  rewrite !SFcompare_float_key by now apply not_nan_Prim2SF.
  destruct (lex_compare (float_key (Prim2SF x)) (float_key (Prim2SF y))) eqn:E.
  - apply lex_compare_Eq in E. rewrite E.
    assert (H : lex_compare (float_key (Prim2SF y)) (float_key (Prim2SF y)) = Eq)
      by now apply lex_compare_Eq.
    now rewrite H.
  - assert (H : lex_compare (float_key (Prim2SF y)) (float_key (Prim2SF x)) = Gt)
      by now apply lex_compare_Gt.
    now rewrite H.
  - apply lex_compare_Gt in E. now rewrite E.
Qed.

Lemma float_eqb_ltb (x y : float) :
  is_nan x = false -> is_nan y = false ->
  (x =? y)%float = negb (x <? y)%float && negb (y <? x)%float.
Proof.
  intros Hx Hy. rewrite FloatAxioms.eqb_spec, !FloatAxioms.ltb_spec. unfold SFeqb, SFltb.
  rewrite !SFcompare_float_key by now apply not_nan_Prim2SF.
  destruct (lex_compare (float_key (Prim2SF x)) (float_key (Prim2SF y))) eqn:E.
  - apply lex_compare_Eq in E. rewrite E.
    assert (H : lex_compare (float_key (Prim2SF y)) (float_key (Prim2SF y)) = Eq)
      by now apply lex_compare_Eq.
    now rewrite H.
  - destruct (lex_compare (float_key (Prim2SF y)) (float_key (Prim2SF x)));
      reflexivity.
  - apply lex_compare_Gt in E. now rewrite E.
Qed.

Lemma float_eqb_nan_l (x y : float) : is_nan x = true -> (x =? y)%float = false.
Proof.
  unfold is_nan. rewrite !FloatAxioms.eqb_spec. unfold SFeqb.
  destruct (Prim2SF x) as [s|s| |s m e]; try reflexivity.
  - discriminate.
  - now destruct s.
  - simpl. destruct s; rewrite Z.compare_refl, Pos.compare_cont_refl; discriminate.
Qed.

(** ** The sort *)

Section SortTheory.
Context {A : Type} (lt : A -> A -> bool) (ok : A -> Prop).
Hypothesis lt_irrefl : forall x, ok x -> lt x x = false.
Hypothesis lt_trans :
  forall x y z, ok x -> ok y -> ok z ->
    lt x y = true -> lt y z = true -> lt x z = true.
Hypothesis lt_negtrans :
  forall x y z, ok x -> ok y -> ok z ->
    lt x y = false -> lt y z = false -> lt x z = false.

Lemma insert_sorted_split (x : A) (l : list A) :
  exists l1 l2,
    l = l1 ++ l2 /\ insert_sorted lt x l = l1 ++ x :: l2 /\
    Forall (fun y => lt y x = true) l1.
Proof.
  induction l as [|y l (l1 & l2 & Hl & Hins & Hlt)].
  - exists [], []. repeat split. constructor.
  - simpl. destruct (lt y x) eqn:Hyx.
    + exists (y :: l1), l2. rewrite Hl at 1. rewrite Hins.
      repeat split. now constructor.
    + exists [], (y :: l). repeat split. constructor.
Qed.

Lemma insert_sorted_perm (x : A) (l : list A) :
  Permutation (insert_sorted lt x l) (x :: l).
Proof.
  destruct (insert_sorted_split x l) as (l1 & l2 & -> & -> & _).
  symmetry. apply Permutation_middle.
Qed.

Lemma sort_ascending_perm (l : list A) : Permutation (sort_ascending lt l) l.
Proof.
  induction l as [|x l IH]; [constructor|].
  simpl. rewrite insert_sorted_perm. now constructor.
Qed.

Lemma sort_reverse_perm (l : list A) : Permutation (sort_reverse lt l) l.
Proof.
  unfold sort_reverse.
  now rewrite <- Permutation_rev, sort_ascending_perm, <- Permutation_rev.
Qed.

Lemma lt_asym (x y : A) : ok x -> ok y -> lt x y = true -> lt y x = false.
Proof using lt_irrefl lt_trans.
  intros Hx Hy Hxy. destruct (lt y x) eqn:Hyx; [|reflexivity].
  rewrite <- (lt_irrefl x Hx). symmetry. now apply (lt_trans x y x).
Qed.

Lemma insert_sorted_ascending (x : A) (l : list A) :
  ok x -> Forall ok l -> ascending lt l -> ascending lt (insert_sorted lt x l).
Proof using lt_irrefl lt_trans lt_negtrans.
  intros Hx Hok Hsorted. induction Hsorted as [|y l Hsorted IH Hy].
  - repeat constructor.
  - apply Forall_cons in Hok as [Hoky Hok]. simpl.
    destruct (lt y x) eqn:Hyx.
    + constructor; [now apply IH|].
      eapply Permutation_Forall; [symmetry; apply insert_sorted_perm|].
      constructor; [now apply lt_asym|exact Hy].
    + constructor; [now constructor|].
      constructor; [exact Hyx|].
      rewrite Forall_forall in Hy, Hok |- *. intros b Hb.
      apply (lt_negtrans b y x); auto.
Qed.

Lemma sort_ascending_ascending (l : list A) :
  Forall ok l -> ascending lt (sort_ascending lt l).
Proof using lt_irrefl lt_trans lt_negtrans.
  induction l as [|x l IH]; intros Hok; [constructor|].
  apply Forall_cons in Hok as [Hx Hok]. simpl.
  apply insert_sorted_ascending; auto.
  eapply Permutation_Forall; [symmetry; apply sort_ascending_perm|exact Hok].
Qed.

Lemma ascending_rev (l : list A) : ascending lt l -> descending lt (rev l).
Proof.
  unfold ascending, descending.
  induction 1 as [|x l Hsorted IH Hx]; [constructor|].
  simpl. apply StronglySorted_app_2.
  - intros a b Ha Hb. apply list_elem_of_singleton in Hb as ->.
    rewrite Forall_forall in Hx. apply Hx.
    apply list_elem_of_In. apply list_elem_of_In in Ha. now apply in_rev.
  - exact IH.
  - repeat constructor.
Qed.

Lemma sort_reverse_descending (l : list A) :
  Forall ok l -> descending lt (sort_reverse lt l).
Proof using lt_irrefl lt_trans lt_negtrans.
  intros Hok. apply ascending_rev, sort_ascending_ascending.
  eapply Permutation_Forall; [apply Permutation_rev|exact Hok].
Qed.

(** The elements that tie with [t] keep their places among themselves. *)
Lemma insert_sorted_ties (t x : A) (l : list A) :
  ok t -> ok x -> Forall ok l ->
  List.filter (tie lt t) (insert_sorted lt x l) = List.filter (tie lt t) (x :: l).
Proof using lt_negtrans.
  intros Ht Hx Hok.
  destruct (insert_sorted_split x l) as (l1 & l2 & -> & -> & Hbelow).
  rewrite List.filter_app. simpl. rewrite List.filter_app.
  destruct (tie lt t x) eqn:Htx; [|reflexivity].
  replace (List.filter (tie lt t) l1) with (@nil A); [reflexivity|].
  symmetry. apply Forall_app in Hok as [Hok1 _].
  induction l1 as [|y l1 IH]; [reflexivity|].
  apply Forall_cons in Hok1 as [Hy Hok1].
  apply Forall_cons in Hbelow as [Hyx Hbelow]. simpl.
  rewrite (IH Hok1 Hbelow).
  replace (tie lt t y) with false; [reflexivity|].
  symmetry. unfold tie in *.
  apply andb_true_iff in Htx as [Htx Hxt].
  apply negb_true_iff in Htx, Hxt.
  destruct (lt y t) eqn:Hyt; [now rewrite andb_false_r|].
  rewrite (lt_negtrans y t x) in Hyx by assumption. discriminate.
Qed.

Lemma sort_ascending_ties (t : A) (l : list A) :
  ok t -> Forall ok l ->
  List.filter (tie lt t) (sort_ascending lt l) = List.filter (tie lt t) l.
Proof using lt_negtrans.
  intros Ht. induction l as [|x l IH]; intros Hok; [reflexivity|].
  apply Forall_cons in Hok as [Hx Hok]. simpl sort_ascending.
  rewrite insert_sorted_ties; auto.
  - simpl. now rewrite IH.
  - eapply Permutation_Forall; [symmetry; apply sort_ascending_perm|exact Hok].
Qed.

Lemma filter_rev (f : A -> bool) (l : list A) :
  List.filter f (rev l) = rev (List.filter f l).
Proof.
  induction l as [|x l IH]; [reflexivity|].
  simpl. rewrite List.filter_app, IH. simpl.
  destruct (f x); [reflexivity|]. now rewrite app_nil_r.
Qed.

Lemma sort_reverse_ties (t : A) (l : list A) :
  ok t -> Forall ok l ->
  List.filter (tie lt t) (sort_reverse lt l) = List.filter (tie lt t) l.
Proof using lt_negtrans.
  intros Ht Hok. unfold sort_reverse.
  rewrite filter_rev, sort_ascending_ties, filter_rev, rev_involutive; auto.
  eapply Permutation_Forall; [apply Permutation_rev|exact Hok].
Qed.
End SortTheory.

(** ** The ranker *)

Lemma length_score_chunks (q : vector) (docs : list document) :
  length (score_chunks q docs) = total_chunks docs.
Proof.
  unfold score_chunks, total_chunks.
  rewrite length_flat_map. f_equal. apply map_ext. intros doc.
  apply length_map.
Qed.

Lemma StronglySorted_weaken {A : Type} (R R' : A -> A -> Prop)
    (P : A -> Prop) (l : list A) :
  (forall a b, P a -> P b -> R a b -> R' a b) ->
  Forall P l -> StronglySorted R l -> StronglySorted R' l.
Proof.
  intros HR HP Hsorted. induction Hsorted as [|a l Hsorted IH Ha].
  - constructor.
  - apply Forall_cons in HP as [HPa HP]. constructor; [now apply IH|].
    rewrite Forall_forall in Ha, HP |- *. intros b Hb.
    apply HR; auto.
Qed.

Lemma filter_none {A : Type} (f : A -> bool) (l : list A) :
  (forall a, f a = false) -> List.filter f l = [].
Proof.
  intros Hf. induction l as [|a l IH]; [reflexivity|].
  simpl. now rewrite Hf.
Qed.

Lemma float_eqb_nan_r (x y : float) : is_nan y = true -> (x =? y)%float = false.
Proof.
  unfold is_nan. rewrite !FloatAxioms.eqb_spec. unfold SFeqb.
  destruct (Prim2SF y) as [s|s| |s m e].
  - discriminate.
  - now destruct s.
  - now destruct (Prim2SF x).
  - simpl. destruct s; rewrite Z.compare_refl, Pos.compare_cont_refl; discriminate.
Qed.

Lemma sort_reverse_scores_descending (l : list hit) :
  Forall scored l -> descending_scores (sort_reverse score_lt l).
Proof.
  intros Hl.
  apply (StronglySorted_weaken (fun a b => score_lt a b = false) _ scored).
  - intros a b Ha Hb Hab. unfold score_lt in Hab.
    rewrite float_leb_ltb by assumption. now rewrite Hab.
  - eapply Permutation_Forall; [symmetry; apply sort_reverse_perm|exact Hl].
  - apply (sort_reverse_descending score_lt scored); auto.
    + intros x _. apply float_ltb_irrefl.
    + intros x y z. apply float_ltb_trans.
    + intros x y z. apply float_ltb_negtrans.
Qed.

Lemma sort_reverse_scores_stable (l : list hit) (s : float) :
  Forall scored l ->
  List.filter (fun h => (score h =? s)%float) (sort_reverse score_lt l) =
  List.filter (fun h => (score h =? s)%float) l.
Proof.
  intros Hl. destruct (is_nan s) eqn:Hs.
  - rewrite !filter_none; auto; intros h; now apply float_eqb_nan_r.
  - set (t := (s, "", "") : hit).
    assert (Htie : forall l' : list hit, Forall scored l' ->
              List.filter (fun h => (score h =? s)%float) l' =
              List.filter (tie score_lt t) l').
    { intros l' Hl'. apply filter_ext_in. intros h Hh.
      rewrite Forall_forall in Hl'. apply list_elem_of_In, Hl' in Hh.
      unfold tie, score_lt. simpl score at 2 3.
      rewrite float_eqb_ltb by assumption. apply andb_comm. }
    rewrite !Htie; auto.
    + apply (sort_reverse_ties score_lt scored); auto.
      intros x y z. apply float_ltb_negtrans.
    + eapply Permutation_Forall; [symmetry; apply sort_reverse_perm|exact Hl].
Qed.

(** C5, as the code has it.  Whatever the scores, the ranker returns
    [min(max(1, top_k), total_chunks)] entries, so at least one when the
    store holds a chunk, and they are the first [max(1, top_k)] entries of
    an arrangement of the scored chunks.  When no score is NaN, this
    arrangement is in descending order of score, equal scores keeping the
    order of insertion. *)
Theorem rank_sorted_top_k (q : vector) (docs : list document) (top_k : Z) :
  let k := Z.to_nat (Z.max 1 top_k) in
  length (rank q docs top_k) = Nat.min k (total_chunks docs)
  /\ ((0 < total_chunks docs)%nat -> (0 < length (rank q docs top_k))%nat)
  /\ exists sorted : list hit,
       rank q docs top_k = firstn k sorted
       /\ Permutation sorted (score_chunks q docs)
       /\ (Forall scored (score_chunks q docs) ->
           descending_scores sorted
           /\ forall s : float,
                List.filter (fun h => (score h =? s)%float) sorted =
                List.filter (fun h => (score h =? s)%float)
                            (score_chunks q docs)).
Proof.
  intros k.
  assert (Hlen : length (rank q docs top_k) = Nat.min k (total_chunks docs)).
  { unfold rank. fold k.
    rewrite length_firstn, (Permutation_length (sort_reverse_perm _ _)).
    now rewrite length_score_chunks. }
  split; [exact Hlen|]. split; [rewrite Hlen; subst k; lia|].
  exists (sort_reverse score_lt (score_chunks q docs)).
  split; [reflexivity|]. split; [apply sort_reverse_perm|].
  intros Hscored.
  split; [now apply sort_reverse_scores_descending|].
  intros s. now apply sort_reverse_scores_stable.
Qed.

Lemma rank_sorted_top_k_witness :
  rank [1; 0]%float ranked_documents 0 = [(1%float, "east", "/srv/a.pdf")]
  /\ rank [1; 0]%float ranked_documents 5 =
     [(1%float, "east", "/srv/a.pdf"); (1%float, "east again", "/srv/b.pdf");
      (0%float, "north", "/srv/a.pdf")]
  /\ length (rank [1; 0]%float ranked_documents 2) = 2%nat
  /\ descending_scores (rank [1; 0]%float ranked_documents 5).
Proof.
  split; [reflexivity|]. split; [reflexivity|].
  destruct (rank_sorted_top_k [1; 0]%float ranked_documents 2)
    as (Hlen & _ & _).
  split; [exact Hlen|].
  destruct (rank_sorted_top_k [1; 0]%float ranked_documents 5)
    as (_ & _ & sorted & Hrank & Hperm & Hsorted).
  destruct Hsorted as [Hdesc _]; [repeat constructor|].
  rewrite Hrank, firstn_all2; [exact Hdesc|].
  rewrite (Permutation_length Hperm). vm_compute. lia.
Defined.

(** Counterexample for C5 as the specification words it.  With a NaN among the scores
    the result is not in descending order, and no arrangement of the scored
    chunks is; and with a [top_k] of 0 the result has one entry, not
    [min(top_k, total_chunks)], which is none. *)
Lemma rank_sorted_counterexample :
  map score (score_chunks [0x1p+600%float] overflow_documents) = [nan; 0%float]
  /\ ~ descending_scores (rank [0x1p+600%float] overflow_documents 2)
  /\ (forall l : list hit,
        Permutation l (score_chunks [0x1p+600%float] overflow_documents) ->
        ~ descending_scores l)
  /\ length (rank [1; 0]%float ranked_documents 0) = 1%nat
  /\ Nat.min (Z.to_nat 0) (total_chunks ranked_documents) = 0%nat.
Proof.
  split; [reflexivity|]. split; [|split; [|split; reflexivity]].
  - intros H. apply StronglySorted_inv in H as [_ H].
    apply Forall_inv in H. vm_compute in H. discriminate.
  - intros l Hl H. symmetry in Hl. vm_compute in Hl.
    apply Permutation_length_2_inv in Hl as [->| ->];
      apply StronglySorted_inv in H as [_ H];
      apply Forall_inv in H; vm_compute in H; discriminate.
Qed.

(** ** Rounding never turns a positive sum into zero *)

Lemma shr_m_shr_1 (mrs : shr_record) :
  0 <= shr_m mrs -> shr_m (shr_1 mrs) = shr_m mrs / 2.
Proof.
  intros Hm. rewrite <- Z.div2_div.
  destruct mrs as [[|[p|p|]|p] r s]; simpl in *; try reflexivity; lia.
Qed.

Lemma shr_m_iter_pos (p : positive) (mrs : shr_record) :
  0 <= shr_m mrs ->
  shr_m (SpecFloat.iter_pos shr_1 p mrs) = shr_m mrs / 2 ^ Z.pos p.
Proof.
  revert mrs. induction p as [p IH|p IH|]; intros mrs Hm; simpl SpecFloat.iter_pos.
  - assert (H1 : 0 <= shr_m (shr_1 mrs))
      by (rewrite shr_m_shr_1 by assumption; apply Z.div_pos; lia).
    assert (H2 : 0 <= shr_m (SpecFloat.iter_pos shr_1 p (shr_1 mrs)))
      by (rewrite IH by assumption; apply Z.div_pos; lia).
    rewrite IH, IH, shr_m_shr_1 by assumption.
    rewrite !Z.div_div by lia. f_equal.
    rewrite <- Z.pow_add_r, <- (Z.pow_1_r 2) at 1 by lia.
    rewrite <- Z.pow_add_r by lia. f_equal. lia.
  - assert (H2 : 0 <= shr_m (SpecFloat.iter_pos shr_1 p mrs))
      by (rewrite IH by assumption; apply Z.div_pos; lia).
    rewrite IH, IH by assumption.
    rewrite !Z.div_div by lia. f_equal.
    rewrite <- Z.pow_add_r by lia. f_equal. lia.
  - rewrite shr_m_shr_1 by assumption. now rewrite Z.pow_1_r.
Qed.

Lemma digits2_pos_lower (m : positive) :
  2 ^ (Z.pos (digits2_pos m) - 1) <= Z.pos m.
Proof.
  induction m as [m IH|m IH|]; simpl digits2_pos.
  - rewrite Pos2Z.inj_succ. replace (Z.succ _ - 1) with (Z.succ (Z.pos (digits2_pos m) - 1)) by lia.
    rewrite Z.pow_succ_r by lia. lia.
  - rewrite Pos2Z.inj_succ. replace (Z.succ _ - 1) with (Z.succ (Z.pos (digits2_pos m) - 1)) by lia.
    rewrite Z.pow_succ_r by lia. lia.
  - simpl. lia.
Qed.

Lemma shr_m_shr_record_of_loc (m : Z) (l : location) :
  shr_m (shr_record_of_loc m l) = m.
Proof. now destruct l as [|[]]. Qed.

(** Shifting a positive mantissa to its canonical exponent leaves it
    positive, when it starts at or above the least exponent. *)
Lemma shr_fexp_positive (m : positive) (e : Z) (l : location) :
  emin <= e ->
  0 < shr_m (shr_fexp prec emax (Z.pos m) e l).1
  /\ emin <= (shr_fexp prec emax (Z.pos m) e l).2.
Proof.
  intros He. unfold shr_fexp, shr. simpl Zdigits2.
  destruct (fexp prec emax (Z.pos (digits2_pos m) + e) - e) as [|p|p] eqn:En;
    simpl fst; simpl snd.
  - rewrite shr_m_shr_record_of_loc. lia.
  - rewrite shr_m_iter_pos by (rewrite shr_m_shr_record_of_loc; lia).
    rewrite shr_m_shr_record_of_loc. split; [|lia].
    unfold fexp in En. pose proof (digits2_pos_lower m) as Hd.
    assert (Hp : Z.pos p = Z.pos (digits2_pos m) - prec) by lia.
    apply Z.div_str_pos. split; [apply Z.pow_pos_nonneg; lia|].
    etransitivity; [|exact Hd].
    apply Z.pow_le_mono_r; [lia|]. rewrite Hp. unfold prec. lia.
  - rewrite shr_m_shr_record_of_loc. lia.
Qed.

Lemma round_nearest_even_positive (m : Z) (l : location) :
  0 < m -> 0 < round_nearest_even m l.
Proof.
  intros Hm. destruct l as [|[]]; simpl; try lia.
  destruct (Z.even m); lia.
Qed.

Lemma binary_round_aux_not_zero (s : bool) (m : positive) (e : Z)
    (l : location) :
  emin <= e -> is_zero_spec (binary_round_aux prec emax s (Z.pos m) e l) = false.
Proof.
  intros He. unfold binary_round_aux.
  pose proof (shr_fexp_positive m e l He) as [Hm1 He1].
  destruct (shr_fexp prec emax (Z.pos m) e l) as [mrs1 e1].
  simpl fst in Hm1. simpl snd in He1.
  pose proof (round_nearest_even_positive (shr_m mrs1)
                (loc_of_shr_record mrs1) Hm1) as Hm2.
  destruct (round_nearest_even (shr_m mrs1) (loc_of_shr_record mrs1))
    as [|m2|m2]; try lia.
  pose proof (shr_fexp_positive m2 e1 loc_Exact He1) as [Hm3 _].
  destruct (shr_fexp prec emax (Z.pos m2) e1 loc_Exact) as [mrs3 e3].
  simpl fst in Hm3.
  destruct (shr_m mrs3) as [|m3|m3]; try lia.
  now destruct (e3 <=? emax - prec).
Qed.

Lemma binary_round_aux_not_negative (mx e : Z) (l : location) :
  not_negative (binary_round_aux prec emax false mx e l).
Proof.
  unfold binary_round_aux.
  destruct (shr_fexp prec emax mx e l) as [mrs1 e1].
  destruct (shr_fexp prec emax _ e1 loc_Exact) as [mrs3 e3].
  destruct (shr_m mrs3); simpl; auto.
  now destruct (e3 <=? emax - prec).
Qed.

Lemma shl_align_exponent (m : positive) (e e' : Z) :
  emin <= e -> emin <= e' -> emin <= (shl_align m e e').2.
Proof. intros He He'. unfold shl_align. now destruct (e' - e). Qed.

Lemma binary_round_not_zero (s : bool) (m : positive) (e : Z) :
  emin <= e -> is_zero_spec (binary_round prec emax s m e) = false.
Proof.
  intros He. unfold binary_round.
  pose proof (shl_align_exponent m e
                (fexp prec emax (Z.pos (digits2_pos m) + e)) He) as Hez.
  destruct (shl_align m e _) as [mz ez]. simpl snd in Hez.
  apply binary_round_aux_not_zero. apply Hez. unfold fexp. lia.
Qed.

Lemma binary_round_not_negative (m : positive) (e : Z) :
  not_negative (binary_round prec emax false m e).
Proof.
  unfold binary_round. destruct (shl_align m e _) as [mz ez].
  apply binary_round_aux_not_negative.
Qed.

Lemma valid_binary_exponent (s : bool) (m : positive) (e : Z) :
  valid_binary (S754_finite s m e) = true -> emin <= e.
Proof.
  unfold SpecFloat.valid_binary, bounded, canonical_mantissa, fexp.
  intros H. apply andb_true_iff in H as [H _]. apply Z.eqb_eq in H. lia.
Qed.

Lemma SFadd_finite_positive (mx my : positive) (ex ey : Z) :
  SFadd prec emax (S754_finite false mx ex) (S754_finite false my ey) =
  binary_round prec emax false
    ((shl_align mx ex (Z.min ex ey)).1 + (shl_align my ey (Z.min ex ey)).1)%positive
    (Z.min ex ey).
Proof. reflexivity. Qed.

Lemma SFadd_not_negative (x y : spec_float) :
  not_negative x -> not_negative y -> not_negative (SFadd prec emax x y).
Proof.
  destruct x as [sx|sx| |sx mx ex], y as [sy|sy| |sy my ey];
    intros Hx Hy; simpl in Hx, Hy; subst; try exact I; try reflexivity.
  - destruct sx, sy; exact I.
  - rewrite SFadd_finite_positive. apply binary_round_not_negative.
Qed.

Lemma SFadd_zero_inv (x y : spec_float) :
  valid_binary x = true -> valid_binary y = true ->
  not_negative x -> not_negative y ->
  is_zero_spec (SFadd prec emax x y) = true -> is_zero_spec x = true.
Proof.
  destruct x as [sx|sx| |sx mx ex], y as [sy|sy| |sy my ey];
    intros Vx Vy Hx Hy; simpl in Hx, Hy; subst; try reflexivity;
    try discriminate.
  rewrite SFadd_finite_positive, binary_round_not_zero; [discriminate|].
  apply valid_binary_exponent in Vx, Vy. lia.
Qed.

Lemma SFmul_self_not_negative (x : spec_float) :
  not_negative (SFmul prec emax x x).
Proof.
  destruct x as [s|s| |s m e]; simpl; try exact I; try apply xorb_nilpotent.
  rewrite xorb_nilpotent. apply binary_round_aux_not_negative.
Qed.

(** ** Similarity with a vector of zero magnitude *)

Lemma float_eqb_zero (x : float) :
  (x =? 0)%float = is_zero_spec (Prim2SF x).
Proof.
  rewrite FloatAxioms.eqb_spec. change (Prim2SF 0) with (S754_zero false).
  unfold SFeqb.
  destruct (Prim2SF x) as [s|s| |s m e]; try reflexivity; now destruct s.
Qed.

Lemma float_square_not_negative (x : float) :
  not_negative (Prim2SF (x * x)).
Proof. rewrite mul_spec. apply SFmul_self_not_negative. Qed.

Lemma float_add_not_negative (x y : float) :
  not_negative (Prim2SF x) -> not_negative (Prim2SF y) ->
  not_negative (Prim2SF (x + y)).
Proof. intros Hx Hy. rewrite add_spec. now apply SFadd_not_negative. Qed.

Lemma float_add_zero_inv (x y : float) :
  not_negative (Prim2SF x) -> not_negative (Prim2SF y) ->
  (x + y =? 0)%float = true -> (x =? 0)%float = true.
Proof.
  intros Hx Hy. rewrite !float_eqb_zero, add_spec.
  apply SFadd_zero_inv; auto using Prim2SF_valid.
Qed.

Lemma squares_from_not_negative (l : vector) (acc : float) :
  not_negative (Prim2SF acc) ->
  not_negative (Prim2SF (fold_left (fun s x => (s + x * x)%float) l acc)).
Proof.
  revert acc. induction l as [|x l IH]; intros acc Hacc; [exact Hacc|].
  simpl. apply IH, float_add_not_negative; auto using float_square_not_negative.
Qed.

Lemma squares_from_zero (l : vector) (acc : float) :
  not_negative (Prim2SF acc) ->
  (fold_left (fun s x => (s + x * x)%float) l acc =? 0)%float = true ->
  (acc =? 0)%float = true.
Proof.
  revert acc. induction l as [|x l IH]; intros acc Hacc Hzero; [exact Hzero|].
  simpl in Hzero. apply IH in Hzero.
  - apply (float_add_zero_inv acc (x * x));
      auto using float_square_not_negative.
  - apply float_add_not_negative; auto using float_square_not_negative.
Qed.

(** When the squares of a vector add up to zero, so do those of each of
    its prefixes. *)
Lemma sum_squares_prefix (v : vector) (k : nat) :
  (sum_squares v =? 0)%float = true ->
  (sum_squares (firstn k v) =? 0)%float = true.
Proof.
  intros Hzero. rewrite <- (firstn_skipn k v) in Hzero.
  unfold sum_squares in Hzero. rewrite fold_left_app in Hzero.
  apply squares_from_zero in Hzero; [exact Hzero|].
  apply squares_from_not_negative. exact I.
Qed.

Lemma cosine_sums_from (a b : vector) (dot na nb : float) :
  (fold_left cosine_step (combine a b) (dot, na, nb)).1.2 =
    fold_left (fun s x => (s + x * x)%float) (firstn (length b) a) na
  /\ (fold_left cosine_step (combine a b) (dot, na, nb)).2 =
    fold_left (fun s x => (s + x * x)%float) (firstn (length a) b) nb.
Proof.
  revert b dot na nb. induction a as [|x a IH]; intros [|y b] dot na nb;
    try (split; reflexivity).
  simpl. apply IH.
Qed.

Lemma cosine_sums_norms (a b : vector) :
  (cosine_sums a b).1.2 = sum_squares (firstn (length b) a)
  /\ (cosine_sums a b).2 = sum_squares (firstn (length a) b).
Proof. apply cosine_sums_from. Qed.

(** C8.  When the squares of the components of either vector add up to
    [0.0], the similarity is [0.0]; and a run that gets to the division
    has found neither sum equal to [0.0]. *)
Theorem cosine_zero_magnitude (a b : vector) :
  ((sum_squares a =? 0)%float = true \/ (sum_squares b =? 0)%float = true ->
   cosine_similarity a b = 0%float)
  /\ (reaches_division a b = true ->
      (sum_squares a =? 0)%float = false /\ (sum_squares b =? 0)%float = false).
Proof.
  pose proof (cosine_sums_norms a b) as [Hna Hnb].
  unfold cosine_similarity, reaches_division.
  destruct (cosine_sums a b) as [[dot na] nb]. simpl in Hna, Hnb.
  assert (Hzero : (sum_squares a =? 0)%float = true \/
                  (sum_squares b =? 0)%float = true ->
                  ((na =? 0) || (nb =? 0))%float = true).
  { intros [H|H]; apply orb_true_iff; [left|right]; subst.
    - now apply sum_squares_prefix.
    - now apply sum_squares_prefix. }
  split.
  - intros H. now rewrite (Hzero H).
  - destruct ((na =? 0) || (nb =? 0))%float; [discriminate|].
    intros _. split.
    + destruct (sum_squares a =? 0)%float; [|reflexivity].
      symmetry. apply Hzero. now left.
    + destruct (sum_squares b =? 0)%float; [|reflexivity].
      symmetry. apply Hzero. now right.
Qed.

Lemma cosine_zero_magnitude_witness :
  cosine_similarity [0; 0; 0]%float [3; 4]%float = 0%float
  /\ cosine_similarity [1; 2]%float [0; 0; 5]%float = 0%float.
Proof.
  split.
  - apply (cosine_zero_magnitude [0; 0; 0]%float [3; 4]%float).
    left. reflexivity.
  - reflexivity.
Defined.

(** ** The product of two square roots is never zero *)

(** The leading bit of a positive float [m * 2^e] stands at
    [digits2_pos m + e]; rounding never lowers it, as long as it stands
    above the least exponent. *)

Lemma digits2_pos_upper (m : positive) :
  Z.pos m < 2 ^ Z.pos (digits2_pos m).
Proof.
  induction m as [m IH|m IH|]; simpl digits2_pos;
    rewrite ?Pos2Z.inj_succ, ?Z.pow_succ_r by lia; lia.
Qed.

Lemma digits2_pos_ge (m : positive) (k : Z) :
  2 ^ (k - 1) <= Z.pos m -> k <= Z.pos (digits2_pos m).
Proof.
  intros H. pose proof (digits2_pos_upper m) as Hm.
  destruct (Z.le_gt_cases k (Z.pos (digits2_pos m))) as [Hk|Hk]; [exact Hk|].
  assert (2 ^ Z.pos (digits2_pos m) <= 2 ^ (k - 1))
    by (apply Z.pow_le_mono_r; lia).
  lia.
Qed.

Lemma shr_fexp_leading (m : positive) (e : Z) (l : location) :
  emin < Z.pos (digits2_pos m) + e ->
  exists m1 : positive,
    shr_m (shr_fexp prec emax (Z.pos m) e l).1 = Z.pos m1
    /\ Z.pos (digits2_pos m) + e <=
       Z.pos (digits2_pos m1) + (shr_fexp prec emax (Z.pos m) e l).2.
Proof.
  intros Ht. unfold shr_fexp, shr. simpl Zdigits2.
  destruct (fexp prec emax (Z.pos (digits2_pos m) + e) - e) as [|p|p] eqn:En;
    simpl fst; simpl snd.
  - rewrite shr_m_shr_record_of_loc. exists m. split; [reflexivity|lia].
  - rewrite shr_m_iter_pos by (rewrite shr_m_shr_record_of_loc; lia).
    rewrite shr_m_shr_record_of_loc.
    pose proof (digits2_pos_lower m) as Hd.
    assert (Hp : Z.pos p <= Z.pos (digits2_pos m) - 1)
      by (unfold fexp, SpecFloat.emin, prec, emax in *; lia).
    assert (Hq : 2 ^ (Z.pos (digits2_pos m) - Z.pos p - 1) <=
                 Z.pos m / 2 ^ Z.pos p).
    { apply Z.div_le_lower_bound; [apply Z.pow_pos_nonneg; lia|].
      rewrite <- Z.pow_add_r by lia.
      replace (Z.pos p + (Z.pos (digits2_pos m) - Z.pos p - 1))
        with (Z.pos (digits2_pos m) - 1) by lia.
      exact Hd. }
    assert (Hpos : 0 < 2 ^ (Z.pos (digits2_pos m) - Z.pos p - 1))
      by (apply Z.pow_pos_nonneg; lia).
    destruct (Z.pos m / 2 ^ Z.pos p) as [|m1|m1]; try lia.
    exists m1. split; [reflexivity|].
    apply digits2_pos_ge in Hq. lia.
  - rewrite shr_m_shr_record_of_loc. exists m. split; [reflexivity|lia].
Qed.

Lemma binary_round_aux_leading (s : bool) (m : positive) (e : Z)
    (l : location) :
  emin < Z.pos (digits2_pos m) + e ->
  binary_round_aux prec emax s (Z.pos m) e l = S754_infinity s
  \/ exists (m2 : positive) (e2 : Z),
       binary_round_aux prec emax s (Z.pos m) e l = S754_finite s m2 e2
       /\ Z.pos (digits2_pos m) + e <= Z.pos (digits2_pos m2) + e2.
Proof.
  intros Ht. unfold binary_round_aux.
  destruct (shr_fexp_leading m e l Ht) as (m1 & Hm1 & Ht1).
  destruct (shr_fexp prec emax (Z.pos m) e l) as [mrs1 e1].
  simpl fst in Hm1. simpl snd in Ht1. rewrite Hm1.
  assert (Hr : Z.pos m1 <=
               round_nearest_even (Z.pos m1) (loc_of_shr_record mrs1)).
  { unfold round_nearest_even.
    destruct (loc_of_shr_record mrs1) as [|[]]; try lia.
    destruct (Z.even (Z.pos m1)); lia. }
  destruct (round_nearest_even (Z.pos m1) (loc_of_shr_record mrs1))
    as [|m1'|m1']; try lia.
  assert (Hd : Z.pos (digits2_pos m1) <= Z.pos (digits2_pos m1')).
  { apply digits2_pos_ge. pose proof (digits2_pos_lower m1). lia. }
  destruct (shr_fexp_leading m1' e1 loc_Exact) as (m3 & Hm3 & Ht3); [lia|].
  destruct (shr_fexp prec emax (Z.pos m1') e1 loc_Exact) as [mrs3 e3].
  simpl fst in Hm3. simpl snd in Ht3. rewrite Hm3.
  destruct (e3 <=? emax - prec); [|now left].
  right. exists m3, e3. split; [reflexivity|lia].
Qed.

Lemma sqrt_core_leading (m : positive) (e : Z) :
  exists (q : positive) (e' : Z) (l : location),
    SFsqrt_core_binary prec emax (Z.pos m) e = (Z.pos q, e', l)
    /\ Z.pos (digits2_pos m) + e <= 2 * (Z.pos (digits2_pos q) + e').
Proof.
  unfold SFsqrt_core_binary. simpl Zdigits2.
  set (d := Z.pos (digits2_pos m)).
  set (e' := Z.min (fexp prec emax (Z.div2 (d + e + 1))) (Z.div2 e)).
  assert (Hs : 0 <= e - 2 * e').
  { pose proof (Z.div2_odd e) as He. destruct (Z.odd e); simpl in He; lia. }
  set (m' := match e - 2 * e' with
             | 0 => Z.pos m
             | Z.pos _ => Z.shiftl (Z.pos m) (e - 2 * e')
             | Z.neg _ => 0
             end).
  assert (Hm' : m' = Z.pos m * 2 ^ (e - 2 * e')).
  { unfold m'. destruct (e - 2 * e') as [|p|p] eqn:Es; try lia.
    now rewrite Z.shiftl_mul_pow2. }
  assert (Hlow : 2 ^ (d - 1 + (e - 2 * e')) <= m').
  { rewrite Hm', Z.pow_add_r by lia.
    apply Z.mul_le_mono_nonneg_r; [apply Z.pow_nonneg; lia|].
    apply digits2_pos_lower. }
  assert (H0 : 0 < 2 ^ (d - 1 + (e - 2 * e')))
    by (apply Z.pow_pos_nonneg; lia).
  pose proof (Z.sqrtrem_spec m') as Hspec.
  destruct (Z.sqrtrem m') as [q r].
  destruct Hspec as [Hq Hr]; [lia|].
  destruct q as [|q|q]; try lia.
  eexists q, e', _. split; [reflexivity|].
  pose proof (digits2_pos_upper q) as Hup.
  set (dq := Z.pos (digits2_pos q)) in *.
  assert (Hsq : m' < 2 ^ (2 * dq)).
  { replace (2 * dq) with (dq + dq) by lia. rewrite Z.pow_add_r by lia. nia. }
  assert (Hlt : d - 1 + (e - 2 * e') < 2 * dq).
  { apply (Z.pow_lt_mono_r_iff 2); lia. }
  lia.
Qed.

Lemma SFsqrt_leading (m : positive) (e : Z) :
  emin <= e ->
  SFsqrt prec emax (S754_finite false m e) = S754_infinity false
  \/ exists (m2 : positive) (e2 : Z),
       SFsqrt prec emax (S754_finite false m e) = S754_finite false m2 e2
       /\ emin < 2 * (Z.pos (digits2_pos m2) + e2).
Proof.
  intros He. unfold SFsqrt.
  destruct (sqrt_core_leading m e) as (q & e' & l & -> & Hq).
  destruct (binary_round_aux_leading false q e' l) as [->|(m2 & e2 & -> & H2)].
  - unfold SpecFloat.emin, prec, emax in *. lia.
  - now left.
  - right. exists m2, e2. split; [reflexivity|]. lia.
Qed.

Lemma SFmul_leading_not_zero (mx my : positive) (ex ey : Z) :
  emin < 2 * (Z.pos (digits2_pos mx) + ex) ->
  emin < 2 * (Z.pos (digits2_pos my) + ey) ->
  is_zero_spec
    (SFmul prec emax (S754_finite false mx ex) (S754_finite false my ey)) = false.
Proof.
  intros Hx Hy. unfold SFmul.
  destruct (binary_round_aux_leading (xorb false false) (mx * my) (ex + ey)
              loc_Exact) as [->|(m2 & e2 & -> & _)]; try reflexivity.
  assert (Hd : Z.pos (digits2_pos mx) + Z.pos (digits2_pos my) - 1 <=
               Z.pos (digits2_pos (mx * my))).
  { apply digits2_pos_ge. rewrite Pos2Z.inj_mul.
    replace (Z.pos (digits2_pos mx) + Z.pos (digits2_pos my) - 1 - 1)
      with ((Z.pos (digits2_pos mx) - 1) + (Z.pos (digits2_pos my) - 1)) by lia.
    rewrite Z.pow_add_r by lia.
    apply Z.mul_le_mono_nonneg; try apply digits2_pos_lower;
      apply Z.pow_nonneg; lia. }
  unfold SpecFloat.emin, prec, emax in *. lia.
Qed.

Lemma sqrt_product_not_zero (x y : spec_float) :
  valid_binary x = true -> valid_binary y = true ->
  not_negative x -> not_negative y ->
  is_zero_spec x = false -> is_zero_spec y = false ->
  is_zero_spec (SFmul prec emax (SFsqrt prec emax x) (SFsqrt prec emax y))
  = false.
Proof.
  intros Vx Vy Hx Hy Zx Zy.
  assert (Hclass : forall z : spec_float,
            valid_binary z = true -> not_negative z -> is_zero_spec z = false ->
            SFsqrt prec emax z = S754_nan
            \/ SFsqrt prec emax z = S754_infinity false
            \/ exists (m : positive) (e : Z),
                 SFsqrt prec emax z = S754_finite false m e
                 /\ emin < 2 * (Z.pos (digits2_pos m) + e)).
  { intros [s|s| |s m e] Vz Hz Zz; simpl in Hz, Zz; subst;
      try discriminate; auto.
    apply valid_binary_exponent in Vz.
    destruct (SFsqrt_leading m e Vz) as [->|H]; auto. }
  destruct (Hclass x Vx Hx Zx) as [->|[->|(mx & ex & -> & Hmx)]];
    destruct (Hclass y Vy Hy Zy) as [->|[->|(my & ey & -> & Hmy)]];
    try reflexivity.
  now apply SFmul_leading_not_zero.
Qed.

Lemma float_sqrt_product_not_zero (x y : float) :
  not_negative (Prim2SF x) -> not_negative (Prim2SF y) ->
  (x =? 0)%float = false -> (y =? 0)%float = false ->
  (sqrt x * sqrt y =? 0)%float = false.
Proof.
  intros Hx Hy. rewrite !float_eqb_zero, mul_spec, !sqrt_spec.
  apply sqrt_product_not_zero; auto using Prim2SF_valid.
Qed.

(** ** Similarity over vectors of different lengths, as a number *)

Lemma math_sqrt_returns (x : float) :
  not_negative (Prim2SF x) -> math_sqrt x = Py.Return (sqrt x).
Proof.
  intros Hx. unfold math_sqrt. rewrite FloatAxioms.ltb_spec.
  change (Prim2SF 0) with (S754_zero false).
  destruct (Prim2SF x) as [s|s| |s m e]; simpl in Hx; subst; reflexivity.
Qed.

Lemma cosine_quotient_returns (dot na nb : float) :
  not_negative (Prim2SF na) -> not_negative (Prim2SF nb) ->
  (na =? 0)%float = false -> (nb =? 0)%float = false ->
  cosine_quotient dot na nb = Py.Return (dot / (sqrt na * sqrt nb))%float.
Proof.
  intros Hna Hnb Zna Znb. unfold cosine_quotient, float_div.
  rewrite !math_sqrt_returns by assumption.
  now rewrite float_sqrt_product_not_zero.
Qed.

Lemma cosine_sums_split (u v : vector) (dot na nb : float) :
  length u = length v ->
  fold_left cosine_step (combine u v) (dot, na, nb) =
  (fold_left (fun s xy => (s + fst xy * snd xy)%float) (combine u v) dot,
   fold_left (fun s x => (s + x * x)%float) u na,
   fold_left (fun s x => (s + x * x)%float) v nb).
Proof.
  revert v dot na nb. induction u as [|x u IH]; intros [|y v] dot na nb Hlen;
    try discriminate; [reflexivity|].
  simpl. apply IH. simpl in Hlen. congruence.
Qed.

Lemma cosine_similarity_spec_cosine (a b : vector) :
  let n := Nat.min (length a) (length b) in
  cosine_similarity a b = spec_cosine (firstn n a) (firstn n b).
Proof.
  intros n. unfold cosine_similarity, cosine_sums, spec_cosine, norm.
  rewrite (combine_common_prefix a b). fold n.
  rewrite cosine_sums_split by (rewrite !length_firstn; lia).
  fold (dot_product (firstn n a) (firstn n b)).
  fold (sum_squares (firstn n a)). fold (sum_squares (firstn n b)).
  destruct (sum_squares (firstn n a) =? 0)%float eqn:Za; [reflexivity|].
  destruct (sum_squares (firstn n b) =? 0)%float eqn:Zb; [reflexivity|].
  simpl orb. cbv iota.
  rewrite cosine_quotient_returns; auto;
    apply squares_from_not_negative; exact I.
Qed.

(** C10.  The similarity of two vectors of any lengths is the cosine of
    their common prefixes, the dot product over the product of the norms
    and [0.0] at a zero magnitude: the components past the shorter length
    take no part, and no error stands for the result, since neither square
    root raises and the product of the norms is never zero.  The ranker
    gives every stored chunk this score, so a chunk whose embedding has
    another dimension than the query is scored like any other. *)
Theorem cosine_similarity_common_prefix (a b q : vector)
    (docs : list document) :
  let n := Nat.min (length a) (length b) in
  cosine_similarity a b = spec_cosine (firstn n a) (firstn n b)
  /\ map score (score_chunks q docs) =
     map (fun emb =>
            let k := Nat.min (length q) (length emb) in
            spec_cosine (firstn k q) (firstn k emb))
         (stored_embeddings docs).
Proof.
  split; [apply cosine_similarity_spec_cosine|].
  rewrite scores_of_stored_embeddings. apply map_ext. intros emb.
  apply cosine_similarity_spec_cosine.
Qed.

Example cosine_similarity_unequal_lengths :
  cosine_similarity [3; 4]%float [4; 3; 7]%float =
  spec_cosine [3; 4]%float [4; 3]%float
  /\ spec_cosine [3; 4]%float [4; 3]%float = (24 / 25)%float.
Proof. split; reflexivity. Qed.

(** * Further properties of the code *)

From Stdlib Require DecimalPos DecimalZ.

(** ** Writing and reading the store *)

Lemma length_append (s1 s2 : string) :
  String.length (s1 ++ s2) = (String.length s1 + String.length s2)%nat.
Proof.
  rewrite <- !length_list_ascii_of_string, list_ascii_of_string_app.
  apply length_app.
Qed.

Lemma tmp_path_other (db_path : string) : (db_path ++ ".tmp")%string <> db_path.
Proof.
  intros H. apply (f_equal String.length) in H.
  rewrite length_append in H. simpl in H. lia.
Qed.

Lemma save_db_tmp_gone (fs : files) (db_path : string) (data : list document) :
  save_db NoFault fs db_path data !! (db_path ++ ".tmp")%string = None.
Proof.
  pose proof (tmp_path_other db_path) as Htmp.
  unfold save_db, os_replace. rewrite lookup_insert_eq.
  rewrite lookup_insert_ne by congruence. apply lookup_delete_eq.
Qed.

Lemma save_db_other_file (fault : io_fault) (fs : files) (db_path : string)
    (data : list document) (q : string) :
  q <> db_path -> q <> (db_path ++ ".tmp")%string ->
  save_db fault fs db_path data !! q = fs !! q.
Proof.
  intros Hq Hqtmp. unfold save_db, os_replace. destruct fault.
  - rewrite lookup_insert_eq.
    rewrite lookup_insert_ne by congruence.
    rewrite lookup_delete_ne by congruence.
    now rewrite lookup_insert_ne by congruence.
  - reflexivity.
  - now rewrite lookup_insert_ne by congruence.
Qed.

Lemma save_db_fault_store (fault : io_fault) (fs : files) (db_path : string)
    (data : list document) :
  fault <> NoFault -> save_db fault fs db_path data !! db_path = fs !! db_path.
Proof.
  intros Hfault. pose proof (tmp_path_other db_path) as Htmp.
  destruct fault; [congruence|reflexivity|].
  unfold save_db. now rewrite lookup_insert_ne by congruence.
Qed.

Lemma load_db_same_file (fs fs' : files) (p : string) :
  fs' !! p = fs !! p -> load_db fs' p = load_db fs p.
Proof. intros H. unfold load_db. now rewrite H. Qed.

(** X1.  A write that goes through: the store reads back as written, the
    temporary file is gone, and no other file has changed. *)
Theorem save_db_round_trip (fs : files) (db_path : string)
    (data : list document) :
  let fs' := save_db NoFault fs db_path data in
  load_db fs' db_path = data
  /\ fs' !! (db_path ++ ".tmp")%string = None
  /\ forall q : string,
       q <> db_path -> q <> (db_path ++ ".tmp")%string -> fs' !! q = fs !! q.
Proof.
  cbv zeta. split; [|split].
  - unfold load_db. now rewrite save_db_lookup.
  - apply save_db_tmp_gone.
  - intros q. apply save_db_other_file.
Qed.

(** X2.  A write that fails, at the opening of the temporary file or at the
    replacement: the store file is what it was, and only the temporary
    file may have changed. *)
Theorem save_db_failure_keeps_store (fault : io_fault) (fs : files)
    (db_path : string) (data : list document) :
  fault <> NoFault ->
  let fs' := save_db fault fs db_path data in
  fs' !! db_path = fs !! db_path
  /\ load_db fs' db_path = load_db fs db_path
  /\ forall q : string, q <> (db_path ++ ".tmp")%string -> fs' !! q = fs !! q.
Proof.
  intros Hfault. cbv zeta.
  pose proof (save_db_fault_store fault fs db_path data Hfault) as Hsame.
  split; [exact Hsame|]. split; [now apply load_db_same_file|].
  intros q Hq. destruct (string_dec q db_path) as [->|Hne]; [exact Hsame|].
  now apply save_db_other_file.
Qed.

Lemma save_db_failure_keeps_store_witness :
  load_db (save_db ReplaceFails sample_store
             "/srv/database/0/0/rag_vector_db.json" [])
    "/srv/database/0/0/rag_vector_db.json" =
  load_db sample_store "/srv/database/0/0/rag_vector_db.json".
Proof.
  apply (save_db_failure_keeps_store ReplaceFails sample_store
           "/srv/database/0/0/rag_vector_db.json" []).
  discriminate.
Defined.

(** ** What ingestion does to the files *)

(** The three ways of a run of [ingest_pdf_to_db]. *)
Lemma ingest_cases (w : world) (fs : files) (pdf_path db_path : string)
    (client : OpenAI) :
  ingest_pdf_to_db w fs pdf_path db_path client = (None, fs)
  \/ exists record : document,
       ingest_pdf_to_db w fs pdf_path db_path client =
       (Some (uuid4 w),
        save_db (save_fault w) fs db_path (load_db fs db_path ++ [record]))
       /\ exists cs, chunks record = Some cs /\ cs <> [].
Proof.
  unfold ingest_pdf_to_db.
  set (produced := chunk_text (extract_text_from_pdf w pdf_path) 1200 150).
  set (vectors := embed_texts client produced default_model).
  destruct (negb _); [now left|].
  destruct (is_nil produced) eqn:Hproduced; [now left|].
  destruct (is_nil vectors) eqn:Hvectors; [now left|]. simpl orb.
  destruct (negb _); [now left|].
  right. eexists. split; [reflexivity|]. eexists. split; [reflexivity|].
  intros Hnil. apply (f_equal (@length chunk)) in Hnil.
  rewrite length_make_chunks in Hnil.
  destruct produced, vectors; simpl in *; discriminate.
Qed.

(** X3.  Whatever the outcome, ingestion keeps the documents the store held, in
    their order, and adds one document at most. *)
Theorem ingest_keeps_documents (w : world) (fs : files)
    (pdf_path db_path : string) (client : OpenAI) :
  exists suffix : list document,
    load_db (ingest_pdf_to_db w fs pdf_path db_path client).2 db_path =
    load_db fs db_path ++ suffix
    /\ (length suffix <= 1)%nat.
Proof.
  assert (Hsame : exists suffix : list document,
             load_db fs db_path = load_db fs db_path ++ suffix
             /\ (length suffix <= 1)%nat)
    by (exists []; rewrite app_nil_r; split; [reflexivity|simpl; lia]).
  destruct (ingest_cases w fs pdf_path db_path client)
    as [->|(record & -> & _)]; [exact Hsame|].
  simpl snd. destruct (save_fault w) eqn:Hfault.
  - unfold load_db at 1. rewrite save_db_lookup.
    eexists. split; [reflexivity|]. simpl. lia.
  - exact Hsame.
  - rewrite (load_db_same_file fs _ db_path); [exact Hsame|].
    now apply save_db_fault_store.
Qed.

(** X4.  Ingestion returns the new identifier even when the write fails; the
    store is then what it was, and the document is lost. *)
Theorem ingest_lost_write (w : world) (fs fs' : files)
    (pdf_path db_path : string) (client : OpenAI) (d : string) :
  ingest_pdf_to_db w fs pdf_path db_path client = (Some d, fs') ->
  save_fault w <> NoFault ->
  d = uuid4 w
  /\ fs' !! db_path = fs !! db_path
  /\ load_db fs' db_path = load_db fs db_path.
Proof.
  intros Hrun Hfault.
  destruct (ingest_cases w fs pdf_path db_path client)
    as [Hnone|(record & Hsome & _)]; [congruence|].
  rewrite Hsome in Hrun. injection Hrun as <- <-.
  pose proof (save_db_fault_store (save_fault w) fs db_path
                (load_db fs db_path ++ [record]) Hfault) as Hsame.
  split; [reflexivity|]. split; [exact Hsame|]. now apply load_db_same_file.
Qed.

Lemma ingest_lost_write_witness :
  let w :=
    with_save_fault
      (sample_world "Some text." (Py.Return (constant_client [1%float])))
      ReplaceFails in
  let db_path := "/srv/database/0/0/rag_vector_db.json" in
  let run :=
    ingest_pdf_to_db w sample_store "a.pdf" db_path (constant_client [1%float]) in
  run.1 = Some (uuid4 w)
  /\ load_db run.2 db_path = [sample_document].
Proof.
  intros w db_path run. split; [reflexivity|].
  destruct (ingest_lost_write w sample_store run.2 "a.pdf" db_path
              (constant_client [1%float]) (uuid4 w) eq_refl)
    as (_ & _ & Hload); [discriminate|].
  rewrite Hload. reflexivity.
Defined.

(** X5.  Ingestion into one store leaves every other file as it was, the
    temporary file of the store apart; a search in another store returns
    what it returned. *)
Theorem ingest_other_files (w : world) (fs : files)
    (pdf_path db_path : string) (client : OpenAI) (q : string) :
  q <> db_path -> q <> (db_path ++ ".tmp")%string ->
  let fs' := (ingest_pdf_to_db w fs pdf_path db_path client).2 in
  fs' !! q = fs !! q
  /\ load_db fs' q = load_db fs q
  /\ forall (c : OpenAI) (query : string) (top_k : Z),
       search_db fs' q c query top_k = search_db fs q c query top_k.
Proof.
  intros Hq Hqtmp. cbv zeta.
  assert (Hsame : (ingest_pdf_to_db w fs pdf_path db_path client).2 !! q
                  = fs !! q).
  { destruct (ingest_cases w fs pdf_path db_path client)
      as [->|(record & -> & _)]; [reflexivity|].
    now apply save_db_other_file. }
  pose proof (load_db_same_file fs _ q Hsame) as Hload.
  split; [exact Hsame|]. split; [exact Hload|].
  intros c query top_k. unfold search_db. now rewrite Hload.
Qed.

Lemma ingest_other_files_witness :
  let w := sample_world "Some text." (Py.Return (constant_client [1%float])) in
  load_db
    (ingest_pdf_to_db w sample_store "b.pdf"
       "/srv/database/1/0/rag_vector_db.json" (constant_client [1%float])).2
    "/srv/database/0/0/rag_vector_db.json" =
  load_db sample_store "/srv/database/0/0/rag_vector_db.json".
Proof.
  intros w.
  apply (ingest_other_files w sample_store "b.pdf"
           "/srv/database/1/0/rag_vector_db.json" (constant_client [1%float])
           "/srv/database/0/0/rag_vector_db.json");
    discriminate.
Defined.

(** ** Trimming *)

Lemma lstrip_chars_split (l : list ascii) :
  exists pre : list ascii,
    l = pre ++ Py.lstrip_chars l /\ blank_chars pre = true.
Proof.
  induction l as [|c l (pre & Hl & Hpre)]; [now exists []|].
  simpl. destruct (Py.isspace c) eqn:Hc.
  - exists (c :: pre). simpl. rewrite Hc, Hpre. split; [|reflexivity].
    now rewrite <- Hl.
  - now exists [].
Qed.

Lemma lstrip_chars_edge_free (l : list ascii) :
  edge_free (Py.lstrip_chars l) = true.
Proof.
  induction l as [|c l IH]; [reflexivity|].
  simpl. destruct (Py.isspace c) eqn:Hc; [exact IH|]. simpl. now rewrite Hc.
Qed.

Lemma lstrip_chars_blank (l : list ascii) :
  blank_chars l = true -> Py.lstrip_chars l = [].
Proof.
  induction l as [|c l IH]; [reflexivity|].
  simpl. intros H. apply andb_true_iff in H as [Hc Hl]. rewrite Hc. auto.
Qed.

Lemma lstrip_chars_fixed (l : list ascii) :
  edge_free l = true -> Py.lstrip_chars l = l.
Proof.
  destruct l as [|c l]; [reflexivity|].
  simpl. intros H. apply negb_true_iff in H. now rewrite H.
Qed.

Lemma blank_chars_app (l1 l2 : list ascii) :
  blank_chars (l1 ++ l2) = blank_chars l1 && blank_chars l2.
Proof. apply forallb_app. Qed.

Lemma blank_chars_rev (l : list ascii) : blank_chars (rev l) = blank_chars l.
Proof.
  induction l as [|c l IH]; [reflexivity|].
  simpl. rewrite blank_chars_app, IH. simpl.
  rewrite andb_true_r. apply andb_comm.
Qed.

Lemma rstrip_chars_split (l : list ascii) :
  exists suf : list ascii,
    l = Py.rstrip_chars l ++ suf /\ blank_chars suf = true.
Proof.
  unfold Py.rstrip_chars.
  destruct (lstrip_chars_split (rev l)) as (pre & Hl & Hpre).
  exists (rev pre). split; [|now rewrite blank_chars_rev].
  rewrite <- rev_app_distr, <- Hl. now rewrite rev_involutive.
Qed.

(** What [strip] returns sits in the string between two blank ends, and
    has no white space at its own ends. *)
Lemma strip_chars_split (l : list ascii) :
  exists pre suf : list ascii,
    l = pre ++ Py.strip_chars l ++ suf
    /\ blank_chars pre = true /\ blank_chars suf = true.
Proof.
  unfold Py.strip_chars.
  destruct (lstrip_chars_split l) as (pre & Hl & Hpre).
  destruct (rstrip_chars_split (Py.lstrip_chars l)) as (suf & Hm & Hsuf).
  exists pre, suf. split; [|split; assumption].
  rewrite <- Hm. exact Hl.
Qed.

Lemma strip_chars_edges (l : list ascii) :
  edge_free (Py.strip_chars l) = true
  /\ edge_free (rev (Py.strip_chars l)) = true.
Proof.
  unfold Py.strip_chars. split.
  - destruct (rstrip_chars_split (Py.lstrip_chars l)) as (suf & Hm & _).
    pose proof (lstrip_chars_edge_free l) as Hedge.
    rewrite Hm in Hedge.
    now destruct (Py.rstrip_chars (Py.lstrip_chars l)).
  - unfold Py.rstrip_chars. rewrite rev_involutive.
    apply lstrip_chars_edge_free.
Qed.

Lemma strip_chars_blank (l : list ascii) :
  Py.strip_chars l = [] <-> blank_chars l = true.
Proof.
  split.
  - intros Hstrip. destruct (strip_chars_split l) as (pre & suf & Hl & Hpre & Hsuf).
    rewrite Hstrip in Hl. rewrite Hl, blank_chars_app. simpl.
    now rewrite Hpre, Hsuf.
  - intros Hblank. unfold Py.strip_chars.
    now rewrite (lstrip_chars_blank l Hblank).
Qed.

Lemma strip_chars_fixed (l : list ascii) :
  edge_free l = true -> edge_free (rev l) = true -> Py.strip_chars l = l.
Proof.
  intros Hhead Hlast. unfold Py.strip_chars, Py.rstrip_chars.
  rewrite (lstrip_chars_fixed l Hhead), (lstrip_chars_fixed (rev l) Hlast).
  apply rev_involutive.
Qed.

Lemma strip_trimmed (s : string) : trimmed (Py.strip s) = true.
Proof.
  unfold trimmed, Py.strip. rewrite list_ascii_of_string_of_list_ascii.
  destruct (strip_chars_edges (list_ascii_of_string s)) as [-> ->].
  reflexivity.
Qed.

Lemma strip_fixed (s : string) : trimmed s = true -> Py.strip s = s.
Proof.
  unfold trimmed, Py.strip. intros H. apply andb_true_iff in H as [H1 H2].
  rewrite strip_chars_fixed by assumption.
  apply string_of_list_ascii_of_string.
Qed.

Lemma strip_empty_blank (s : string) : Py.strip s = "" <-> blank s = true.
Proof.
  unfold Py.strip, blank. rewrite <- strip_chars_blank. split.
  - intros H. apply (f_equal list_ascii_of_string) in H.
    now rewrite list_ascii_of_string_of_list_ascii in H.
  - now intros ->.
Qed.

Lemma strip_split (s : string) :
  exists pre suf : string,
    s = (pre ++ Py.strip s ++ suf)%string
    /\ blank pre = true /\ blank suf = true.
Proof.
  destruct (strip_chars_split (list_ascii_of_string s))
    as (pre & suf & Hs & Hpre & Hsuf).
  exists (string_of_list_ascii pre), (string_of_list_ascii suf).
  unfold blank, Py.strip. rewrite !list_ascii_of_string_of_list_ascii.
  split; [|split; assumption].
  rewrite <- !string_of_list_ascii_app, <- Hs.
  symmetry. apply string_of_list_ascii_of_string.
Qed.

Lemma length_strip_le (s : string) :
  (String.length (Py.strip s) <= String.length s)%nat.
Proof.
  destruct (strip_split s) as (pre & suf & Hs & _).
  rewrite Hs at 2. rewrite !length_append. lia.
Qed.

(** ** What the chunks look like *)

Lemma chunk_loop_trimmed (fuel : nat) (tokens : list ascii)
    (max_chars overlap start : Z) (acc r : list string) :
  chunk_loop fuel tokens max_chars overlap start acc = Some r ->
  Forall (fun c => trimmed c = true) acc ->
  Forall (fun c => trimmed c = true) r.
Proof.
  revert start acc. induction fuel as [|fuel IH]; intros start acc Hrun Hacc;
    [discriminate|].
  simpl in Hrun.
  destruct (start <? Z.of_nat (length tokens)); [|now injection Hrun as <-].
  assert (Hacc' : Forall (fun c => trimmed c = true)
            (acc ++ [Py.strip (string_of_list_ascii
               (Py.slice tokens start
                  (Z.min (start + max_chars) (Z.of_nat (length tokens)))))])).
  { apply Forall_app. split; [exact Hacc|].
    constructor; [apply strip_trimmed|constructor]. }
  destruct (_ =? _); [now injection Hrun as <-|].
  eapply IH; eassumption.
Qed.

Lemma filter_truthy_nonempty (l : list string) :
  Forall (fun c => c <> "") (List.filter Py.truthy l).
Proof.
  apply Forall_forall. intros c Hc. apply list_elem_of_In, filter_In in Hc.
  destruct Hc as [_ Hc]. now destruct c.
Qed.

(** X6.  Whatever the parameters, no chunk is empty and no chunk has white
    space at either end. *)
Theorem chunk_text_trimmed (text : string) (max_chars overlap : Z) :
  Forall (fun c => c <> "" /\ trimmed c = true)
         (chunk_text text max_chars overlap).
Proof.
  unfold chunk_text, chunk_text_fuel.
  destruct (Py.truthy text); [|constructor].
  destruct (chunk_loop _ _ _ _ 0 []) as [r|] eqn:Hrun; [|constructor].
  apply chunk_loop_trimmed in Hrun; [|constructor].
  pose proof (filter_truthy_nonempty r) as Hne.
  rewrite Forall_forall in Hrun, Hne |- *. intros c Hc. split; [now apply Hne|].
  apply Hrun. apply list_elem_of_In. apply list_elem_of_In, filter_In in Hc.
  tauto.
Qed.

Lemma substring_piece (s : string) (a c : nat) :
  exists pre suf : string, s = (pre ++ substring a c s ++ suf)%string.
Proof.
  set (l := list_ascii_of_string s).
  exists (string_of_list_ascii (firstn a l)),
         (string_of_list_ascii (skipn c (skipn a l))).
  rewrite substring_firstn_skipn. fold l.
  rewrite <- !string_of_list_ascii_app, !firstn_skipn.
  symmetry. apply string_of_list_ascii_of_string.
Qed.

Lemma chunk_in_spec_windows (text : string) (max_chars overlap : Z)
    (c : string) :
  0 < max_chars -> 0 <= overlap < max_chars ->
  In c (chunk_text text max_chars overlap) ->
  exists k : nat, c = Py.strip (spec_window text max_chars overlap k).
Proof.
  intros Hm Ho Hc. rewrite chunk_text_spec_windows in Hc by assumption.
  apply filter_In in Hc as [Hc _]. unfold spec_windows in Hc.
  rewrite map_map in Hc. apply in_map_iff in Hc as (k & <- & _). now exists k.
Qed.

(** X7.  With valid parameters every chunk is a piece of the text, [max_chars]
    characters long at most, and there are no more chunks than
    characters. *)
Theorem chunk_text_pieces (text : string) (max_chars overlap : Z) :
  0 < max_chars -> 0 <= overlap < max_chars ->
  (length (chunk_text text max_chars overlap) <= String.length text)%nat
  /\ forall c : string,
       In c (chunk_text text max_chars overlap) ->
       (String.length c <= Z.to_nat max_chars)%nat
       /\ exists pre suf : string, text = (pre ++ c ++ suf)%string.
Proof.
  intros Hm Ho. split.
  - destruct (string_dec text "") as [->|Hne]; [reflexivity|].
    rewrite chunk_text_spec_windows by assumption.
    etransitivity; [apply filter_length_le|].
    unfold spec_windows. rewrite !length_map, length_seq.
    pose proof (last_window_lt text max_chars overlap Hne Hm Ho). lia.
  - intros c Hc.
    destruct (chunk_in_spec_windows text max_chars overlap c Hm Ho Hc)
      as [k ->].
    unfold spec_window. split.
    + etransitivity; [apply length_strip_le|apply length_substring_le].
    + destruct (substring_piece text (k * window_step max_chars overlap)
                  (Z.to_nat max_chars)) as (p1 & s1 & Htext).
      destruct (strip_split (substring (k * window_step max_chars overlap)
                               (Z.to_nat max_chars) text))
        as (p2 & s2 & Hwin & _).
      exists (p1 ++ p2)%string, (s2 ++ s1)%string.
      rewrite Htext at 1. rewrite Hwin at 1.
      rewrite <- (string_of_list_ascii_of_string (_ ++ _ ++ s1)%string).
      rewrite <- (string_of_list_ascii_of_string ((p1 ++ p2) ++ _)%string).
      f_equal. rewrite !list_ascii_of_string_app, <- !app_assoc. reflexivity.
Qed.

Lemma chunk_text_pieces_witness :
  (length (chunk_text "Some text of a page." 8 3) <= 20)%nat.
Proof.
  apply (chunk_text_pieces "Some text of a page." 8 3); lia.
Defined.

Lemma blank_chars_firstn (l : list ascii) (k : nat) :
  blank_chars l = true -> blank_chars (firstn k l) = true.
Proof.
  intros H. rewrite <- (firstn_skipn k l), blank_chars_app in H.
  now apply andb_true_iff in H.
Qed.

Lemma blank_chars_skipn (l : list ascii) (k : nat) :
  blank_chars l = true -> blank_chars (skipn k l) = true.
Proof.
  intros H. rewrite <- (firstn_skipn k l), blank_chars_app in H.
  now apply andb_true_iff in H.
Qed.

Lemma blank_substring (s : string) (a c : nat) :
  blank s = true -> blank (substring a c s) = true.
Proof.
  unfold blank. intros H.
  rewrite substring_firstn_skipn, list_ascii_of_string_of_list_ascii.
  now apply blank_chars_firstn, blank_chars_skipn.
Qed.

Lemma blank_append (s1 s2 : string) :
  blank (s1 ++ s2) = blank s1 && blank s2.
Proof. unfold blank. rewrite list_ascii_of_string_app. apply blank_chars_app. Qed.

Lemma blank_drop_overlap (overlap : Z) (c : string) :
  blank c = true -> blank (drop_overlap overlap c) = true.
Proof.
  unfold blank, drop_overlap, Py.slice_from. intros H.
  rewrite list_ascii_of_string_of_list_ascii. now apply blank_chars_skipn.
Qed.

Lemma blank_reconstruct (overlap : Z) (ws : list string) :
  Forall (fun w => blank w = true) ws -> blank (reconstruct overlap ws) = true.
Proof.
  destruct ws as [|w ws]; [reflexivity|]. intros H.
  apply Forall_cons in H as [Hw Hws]. simpl. revert w Hw.
  induction ws as [|w' ws IH]; intros w Hw; [exact Hw|].
  apply Forall_cons in Hws as [Hw' Hws]. simpl. apply IH; [exact Hws|].
  rewrite blank_append, Hw. now apply blank_drop_overlap.
Qed.

Lemma truthy_strip_blank (s : string) :
  Py.truthy (Py.strip s) = negb (blank s).
Proof.
  destruct (blank s) eqn:Hblank.
  - apply strip_empty_blank in Hblank. now rewrite Hblank.
  - destruct (Py.strip s) eqn:Hstrip; [|reflexivity].
    apply strip_empty_blank in Hstrip. congruence.
Qed.

Lemma chunk_text_nil_blank (text : string) (max_chars overlap : Z) :
  0 < max_chars -> 0 <= overlap < max_chars ->
  chunk_text text max_chars overlap = [] <-> blank text = true.
Proof.
  intros Hm Ho. rewrite chunk_text_spec_windows by assumption. split.
  - intros Hnone.
    rewrite <- (reconstruct_spec_windows text max_chars overlap Hm Ho).
    apply blank_reconstruct. apply Forall_forall. intros w Hw.
    apply list_elem_of_In in Hw.
    destruct (blank w) eqn:Hblank; [reflexivity|].
    assert (Hin : In (Py.strip w)
              (List.filter Py.truthy
                 (map Py.strip (spec_windows text max_chars overlap)))).
    { apply filter_In. split; [now apply in_map|].
      now rewrite truthy_strip_blank, Hblank. }
    rewrite Hnone in Hin. contradiction.
  - intros Hblank.
    assert (Hall : forall c, In c (List.filter Py.truthy
              (map Py.strip (spec_windows text max_chars overlap))) -> False).
    { intros c Hc. apply filter_In in Hc as [Hc Htruthy].
      apply in_map_iff in Hc as (w & <- & Hw).
      unfold spec_windows in Hw. apply in_map_iff in Hw as (k & <- & _).
      rewrite truthy_strip_blank in Htruthy. unfold spec_window in Htruthy.
      now rewrite blank_substring in Htruthy. }
    destruct (List.filter _ _) as [|c l]; [reflexivity|].
    exfalso. apply (Hall c). now left.
Qed.

(** X8.  With valid parameters the chunker returns no chunk exactly for the
    texts that hold white space only. *)
Theorem chunk_text_blank (text : string) (max_chars overlap : Z) :
  0 < max_chars -> 0 <= overlap < max_chars ->
  chunk_text text max_chars overlap = [] <-> blank text = true.
Proof. apply chunk_text_nil_blank. Qed.

Lemma chunk_text_blank_witness :
  chunk_text "Some text of a page." 8 3 = [] <->
  blank "Some text of a page." = true.
Proof.
  apply (chunk_text_blank "Some text of a page." 8 3); lia.
Defined.

Lemma last_window_short (n : nat) (max_chars overlap : Z) :
  0 < max_chars -> 0 <= overlap < max_chars -> Z.of_nat n <= max_chars ->
  last_window n max_chars overlap = 0%nat.
Proof.
  intros Hm Ho Hn. unfold last_window.
  pose proof (Z.div_lt_upper_bound
                (Z.of_nat n - max_chars + (max_chars - overlap) - 1)
                (max_chars - overlap) 1). lia.
Qed.

(** X9.  With valid parameters a text that fits in one window gives one chunk,
    the trimmed text, or none when it is blank. *)
Theorem chunk_text_short (text : string) (max_chars overlap : Z) :
  0 < max_chars -> 0 <= overlap < max_chars ->
  Z.of_nat (String.length text) <= max_chars ->
  chunk_text text max_chars overlap =
  if blank text then [] else [Py.strip text].
Proof.
  intros Hm Ho Hshort. rewrite chunk_text_spec_windows by assumption.
  unfold spec_windows. rewrite last_window_short by assumption.
  unfold spec_window. simpl map.
  assert (Hwhole : substring 0 (Z.to_nat max_chars) text = text).
  { rewrite substring_firstn_skipn, skipn_O.
    rewrite firstn_all2 by (rewrite length_list_ascii_of_string; lia).
    apply string_of_list_ascii_of_string. }
  rewrite Hwhole. simpl. rewrite truthy_strip_blank.
  now destruct (blank text).
Qed.

Lemma chunk_text_short_witness :
  chunk_text "  Some text of a page.  " 1200 150 =
  if blank "  Some text of a page.  " then []
  else [Py.strip "  Some text of a page.  "].
Proof.
  apply (chunk_text_short "  Some text of a page.  " 1200 150);
    [lia | lia | vm_compute; discriminate].
Defined.

(** ** Similarity is symmetric *)

Lemma SFmul_comm (x y : spec_float) : SFmul prec emax x y = SFmul prec emax y x.
Proof.
  destruct x as [sx|sx| |sx mx ex], y as [sy|sy| |sy my ey]; simpl;
    try reflexivity; try (now rewrite xorb_comm).
  now rewrite xorb_comm, Pos.mul_comm, Z.add_comm.
Qed.

Lemma float_mul_comm (x y : float) : (x * y = y * x)%float.
Proof. apply Prim2SF_inj. rewrite !mul_spec. apply SFmul_comm. Qed.

Lemma cosine_sums_swap_from (a b : vector) (dot na nb : float) :
  fold_left cosine_step (combine b a) (dot, nb, na) =
  let '(dot', na', nb') := fold_left cosine_step (combine a b) (dot, na, nb) in
  (dot', nb', na').
Proof.
  revert b dot na nb. induction a as [|x a IH]; intros [|y b] dot na nb;
    try reflexivity.
  simpl. rewrite (float_mul_comm y x). apply IH.
Qed.

Lemma cosine_sums_swap (a b : vector) :
  cosine_sums b a =
  let '(dot, na, nb) := cosine_sums a b in (dot, nb, na).
Proof. apply cosine_sums_swap_from. Qed.

(** X10.  The similarity of [a] and [b] is that of [b] and [a], for vectors of
    any lengths and contents. *)
Theorem cosine_similarity_symmetric (a b : vector) :
  cosine_similarity a b = cosine_similarity b a.
Proof.
  unfold cosine_similarity. rewrite (cosine_sums_swap a b).
  destruct (cosine_sums a b) as [[dot na] nb].
  rewrite (orb_comm (nb =? 0)%float).
  destruct ((na =? 0) || (nb =? 0))%float; [reflexivity|].
  unfold cosine_quotient.
  destruct (math_sqrt na) as [ra|ea], (math_sqrt nb) as [rb|eb];
    try reflexivity.
  now rewrite (float_mul_comm rb ra).
Qed.

(** ** Chunks with missing keys *)

(** A stored chunk without an embedding, or with an empty one, scores
    [0.0] against every query, and an empty query gives every chunk the
    score [0.0]. *)
Lemma cosine_similarity_empty (v : vector) :
  cosine_similarity v [] = 0%float /\ cosine_similarity [] v = 0%float.
Proof.
  split; unfold cosine_similarity, cosine_sums.
  - now rewrite combine_nil.
  - reflexivity.
Qed.

(** ** What a search returns *)

Lemma length_rank (q : vector) (docs : list document) (top_k : Z) :
  length (rank q docs top_k) =
  Nat.min (Z.to_nat (Z.max 1 top_k)) (total_chunks docs).
Proof.
  unfold rank.
  rewrite length_firstn, (Permutation_length (sort_reverse_perm _ _)).
  now rewrite length_score_chunks.
Qed.

Lemma in_firstn {A : Type} (x : A) (k : nat) (l : list A) :
  In x (firstn k l) -> In x l.
Proof.
  intros H. rewrite <- (firstn_skipn k l). apply in_or_app. now left.
Qed.

Lemma in_rank (q : vector) (docs : list document) (top_k : Z) (h : hit) :
  In h (rank q docs top_k) -> In h (score_chunks q docs).
Proof.
  unfold rank. intros H. apply in_firstn in H.
  eapply Permutation_in; [apply sort_reverse_perm|exact H].
Qed.

Lemma in_score_chunks (q : vector) (docs : list document) (h : hit) :
  In h (score_chunks q docs) <->
  exists (doc : document) (ch : chunk),
    In doc docs /\ In ch (default [] (chunks doc)) /\
    h = (cosine_similarity q (default [] (embedding ch)),
         default "" (text ch), default "unknown" (source_path doc)).
Proof.
  unfold score_chunks. rewrite in_flat_map. split.
  - intros (doc & Hdoc & Hh). apply in_map_iff in Hh as (ch & <- & Hch).
    now exists doc, ch.
  - intros (doc & ch & Hdoc & Hch & ->). exists doc. split; [exact Hdoc|].
    apply in_map_iff. now exists ch.
Qed.

Lemma search_db_cases (fs : files) (db_path : string) (client : OpenAI)
    (query : string) (top_k : Z) :
  search_db fs db_path client query top_k = []
  \/ exists (q : vector) (rest : list vector),
       embed_texts client [query] default_model = q :: rest
       /\ load_db fs db_path <> []
       /\ search_db fs db_path client query top_k =
          rank q (load_db fs db_path) top_k.
Proof.
  unfold search_db.
  destruct (load_db fs db_path) as [|doc docs] eqn:Hdocs; [now left|].
  simpl is_nil. cbv iota.
  destruct (embed_texts client [query] default_model) as [|q rest];
    [now left|].
  right. exists q, rest. repeat split. discriminate.
Qed.

(** X11.  A search returns no more hits than [max(1, top_k)] and no more than
    the store has chunks; every hit is a chunk of a stored document, with
    the score of its embedding against the first vector the provider gave
    for the query, its text and the path of its document, each replaced
    by its default when the key is missing. *)
Theorem search_db_hits (fs : files) (db_path : string) (client : OpenAI)
    (query : string) (top_k : Z) :
  let hits := search_db fs db_path client query top_k in
  (length hits <= Z.to_nat (Z.max 1 top_k))%nat
  /\ (length hits <= total_chunks (load_db fs db_path))%nat
  /\ forall h : hit,
       In h hits ->
       exists (q : vector) (rest : list vector) (doc : document) (ch : chunk),
         embed_texts client [query] default_model = q :: rest
         /\ In doc (load_db fs db_path)
         /\ In ch (default [] (chunks doc))
         /\ h = (cosine_similarity q (default [] (embedding ch)),
                 default "" (text ch), default "unknown" (source_path doc)).
Proof.
  cbv zeta.
  destruct (search_db_cases fs db_path client query top_k)
    as [->|(q & rest & Hq & _ & ->)].
  - simpl. split; [lia|]. split; [lia|]. contradiction.
  - rewrite length_rank. split; [lia|]. split; [lia|].
    intros h Hh. apply in_rank, in_score_chunks in Hh.
    destruct Hh as (doc & ch & Hdoc & Hch & ->).
    now exists q, rest, doc, ch.
Qed.

(** X12.  With a [top_k] that is at least the number of stored chunks, a search
    whose query embedding succeeds returns every chunk of the store once. *)
Theorem search_db_all (fs : files) (db_path : string) (client : OpenAI)
    (query : string) (top_k : Z) (q : vector) (rest : list vector) :
  embed_texts client [query] default_model = q :: rest ->
  Z.of_nat (total_chunks (load_db fs db_path)) <= top_k ->
  Permutation (search_db fs db_path client query top_k)
              (score_chunks q (load_db fs db_path)).
Proof.
  intros Hq Hk. unfold search_db. rewrite Hq.
  destruct (load_db fs db_path) as [|doc docs] eqn:Hdocs; [constructor|].
  simpl is_nil. cbv iota. unfold rank.
  rewrite firstn_all2; [apply sort_reverse_perm|].
  rewrite (Permutation_length (sort_reverse_perm _ _)), length_score_chunks.
  lia.
Qed.

Lemma search_db_all_witness :
  Permutation
    (search_db ranked_store "/srv/database/0/0/rag_vector_db.json"
       (fixed_client [[1; 0]%float]) "east" 5)
    (score_chunks [1; 0]%float
       (load_db ranked_store "/srv/database/0/0/rag_vector_db.json")).
Proof.
  apply (search_db_all ranked_store "/srv/database/0/0/rag_vector_db.json"
           (fixed_client [[1; 0]%float]) "east" 5 [1; 0]%float []);
    [reflexivity | vm_compute; discriminate].
Defined.

Lemma total_chunks_app (docs1 docs2 : list document) :
  total_chunks (docs1 ++ docs2) = (total_chunks docs1 + total_chunks docs2)%nat.
Proof. unfold total_chunks. now rewrite map_app, list_sum_app. Qed.

Lemma search_after_ingest (w : world) (fs fs' : files)
    (pdf_path db_path : string) (client c : OpenAI) (d query : string)
    (top_k : Z) :
  ingest_pdf_to_db w fs pdf_path db_path client = (Some d, fs') ->
  save_fault w = NoFault ->
  embed_texts c [query] default_model <> [] ->
  search_db fs' db_path c query top_k <> [].
Proof.
  intros Hrun Hfault Hq.
  destruct (ingest_cases w fs pdf_path db_path client)
    as [Hnone|(record & Hsome & cs & Hcs & Hne)]; [congruence|].
  rewrite Hsome in Hrun. injection Hrun as <- <-.
  assert (Hdocs : load_db (save_db (save_fault w) fs db_path
                    (load_db fs db_path ++ [record])) db_path =
                  load_db fs db_path ++ [record])
    by (rewrite Hfault; unfold load_db at 1; now rewrite save_db_lookup).
  destruct (search_db_cases
              (save_db (save_fault w) fs db_path (load_db fs db_path ++ [record]))
              db_path c query top_k)
    as [Hempty|(q & rest & _ & _ & Hrank)].
  - unfold search_db in Hempty. rewrite Hdocs in Hempty.
    destruct (load_db fs db_path ++ [record]) eqn:Happ;
      [now destruct (load_db fs db_path)|].
    simpl in Hempty.
    destruct (embed_texts c [query] default_model) as [|q rest];
      [congruence|].
    rewrite <- Happ in Hempty. apply (f_equal (@length hit)) in Hempty.
    rewrite length_rank, total_chunks_app in Hempty.
    unfold total_chunks at 2 in Hempty. simpl in Hempty. rewrite Hcs in Hempty.
    simpl in Hempty. destruct cs; [congruence|]. simpl in Hempty. lia.
  - rewrite Hrank. intros Hnil. apply (f_equal (@length hit)) in Hnil.
    rewrite length_rank, Hdocs, total_chunks_app in Hnil.
    unfold total_chunks at 2 in Hnil. simpl in Hnil. rewrite Hcs in Hnil.
    simpl in Hnil. destruct cs; [congruence|]. simpl in Hnil. lia.
Qed.

(** X13.  After an ingestion that returns an identifier and whose write goes
    through, a search in that store whose query embedding succeeds
    returns a hit, whatever [top_k]. *)
Theorem ingest_then_search (w : world) (fs fs' : files)
    (pdf_path db_path : string) (client c : OpenAI) (d query : string)
    (top_k : Z) :
  ingest_pdf_to_db w fs pdf_path db_path client = (Some d, fs') ->
  save_fault w = NoFault ->
  embed_texts c [query] default_model <> [] ->
  search_db fs' db_path c query top_k <> [].
Proof. apply search_after_ingest. Qed.

Lemma ingest_then_search_witness :
  let w := sample_world "Some text." (Py.Return (constant_client [1%float])) in
  let run :=
    ingest_pdf_to_db w no_files "a.pdf" "/srv/db.json" (constant_client [1%float]) in
  search_db run.2 "/srv/db.json" (constant_client [1%float]) "text" 5 <> [].
Proof.
  intros w run.
  apply (ingest_then_search w no_files run.2 "a.pdf" "/srv/db.json"
           (constant_client [1%float]) (constant_client [1%float]) (uuid4 w)
           "text" 5);
    [reflexivity | reflexivity | discriminate].
Defined.

(** ** The snippets of the retrieve tool *)

Lemma append_assoc (s1 s2 s3 : string) :
  ((s1 ++ s2) ++ s3 = s1 ++ (s2 ++ s3))%string.
Proof.
  rewrite <- (string_of_list_ascii_of_string ((s1 ++ s2) ++ s3)%string).
  rewrite <- (string_of_list_ascii_of_string (s1 ++ (s2 ++ s3))%string).
  now rewrite !list_ascii_of_string_app, app_assoc.
Qed.

Lemma length_replace_newlines (s : string) :
  String.length (Py.replace_newlines s) = String.length s.
Proof. induction s as [|c s IH]; simpl; congruence. Qed.

Lemma replace_newlines_none (s : string) :
  has_newline (Py.replace_newlines s) = false.
Proof.
  unfold has_newline. induction s as [|c s IH]; [reflexivity|].
  cbn [Py.replace_newlines list_ascii_of_string existsb].
  rewrite IH, orb_false_r.
  destruct (Ascii.eqb c "010") eqn:Hc; [reflexivity|].
  now rewrite Ascii.eqb_sym.
Qed.

Lemma has_newline_append (s1 s2 : string) :
  has_newline (s1 ++ s2) = has_newline s1 || has_newline s2.
Proof.
  unfold has_newline. rewrite list_ascii_of_string_app. apply existsb_app.
Qed.

Lemma has_newline_substring (s : string) (a c : nat) :
  has_newline s = false -> has_newline (substring a c s) = false.
Proof.
  destruct (substring_piece s a c) as (pre & suf & Hs).
  intros H. rewrite Hs, !has_newline_append in H.
  apply orb_false_iff in H as [_ H]. now apply orb_false_iff in H.
Qed.

Lemma length_substring_inside (s : string) (a c : nat) :
  (a + c <= String.length s)%nat -> String.length (substring a c s) = c.
Proof.
  intros H.
  rewrite substring_firstn_skipn, <- length_list_ascii_of_string,
    list_ascii_of_string_of_list_ascii.
  rewrite length_firstn, length_skipn, length_list_ascii_of_string. lia.
Qed.

(** X14.  A formatted hit is its header line, its snippet and an empty line.
    The snippet is the trimmed text with every line feed turned into a
    space, whole when it has 800 characters or fewer, and otherwise its
    first 800 characters followed by three dots: no snippet has more than
    803 characters or a line feed. *)
Theorem format_hit_snippet (i : Z) (score : float) (text source : string) :
  format_hit (i, (score, text, source)) =
    (hit_header i score source
     ++ String "010"%char (snippet_of text) ++ String "010"%char "")%string
  /\ (String.length (snippet_of text) <= 803)%nat
  /\ has_newline (snippet_of text) = false
  /\ ((String.length (Py.strip text) <= 800)%nat ->
      snippet_of text = Py.replace_newlines (Py.strip text))
  /\ ((800 < String.length (Py.strip text))%nat ->
      snippet_of text =
      (substring 0 800 (Py.replace_newlines (Py.strip text)) ++ "...")%string).
Proof.
  split.
  - unfold format_hit, hit_header, snippet_of. rewrite !append_assoc.
    reflexivity.
  - unfold snippet_of.
    pose proof (length_replace_newlines (Py.strip text)) as Hlen.
    pose proof (replace_newlines_none (Py.strip text)) as Hnone.
    destruct (Nat.ltb_spec 800 (String.length (Py.replace_newlines (Py.strip text))))
      as [Hlong|Hshort].
    + split; [|split; [|split]].
      * rewrite length_append, length_substring_inside by lia. simpl. lia.
      * rewrite has_newline_append, has_newline_substring by assumption.
        reflexivity.
      * lia.
      * reflexivity.
    + split; [lia|]. split; [exact Hnone|]. split; [reflexivity|lia].
Qed.

(** ** The paths of the tenants *)

Lemma path_join_inner (a b : string) :
  match rev (list_ascii_of_string a) with
  | [] => b
  | "/"%char :: _ => (a ++ b)%string
  | _ :: _ => (a ++ "/" ++ b)%string
  end =
  match rev (list_ascii_of_string a) with
  | [] => b
  | c :: _ => if is_slash c then (a ++ b)%string else (a ++ "/" ++ b)%string
  end.
Proof.
  destruct (rev (list_ascii_of_string a)) as [|c r]; [reflexivity|].
  destruct c as [[] [] [] [] [] [] [] []]; reflexivity.
Qed.

Lemma path_join_outer (a b : string) :
  path_join a b =
  match b with
  | EmptyString =>
      match rev (list_ascii_of_string a) with
      | [] => b
      | "/"%char :: _ => (a ++ b)%string
      | _ :: _ => (a ++ "/" ++ b)%string
      end
  | String c _ =>
      if is_slash c then b
      else match rev (list_ascii_of_string a) with
           | [] => b
           | "/"%char :: _ => (a ++ b)%string
           | _ :: _ => (a ++ "/" ++ b)%string
           end
  end.
Proof.
  destruct b as [|c b]; [reflexivity|].
  destruct c as [[] [] [] [] [] [] [] []]; reflexivity.
Qed.

(** Joining a path that does not end with a slash and a name that does
    not start with one puts a slash between them. *)
Lemma path_join_plain (a b : string) (c : ascii) (b' : string) :
  ends_plain a = true -> b = String c b' -> is_slash c = false ->
  path_join a b = (a ++ "/" ++ b)%string.
Proof.
  intros Ha -> Hc. rewrite path_join_outer, Hc, path_join_inner.
  unfold ends_plain in Ha.
  destruct (rev (list_ascii_of_string a)) as [|d r]; [discriminate|].
  apply negb_true_iff in Ha. now rewrite Ha.
Qed.

Lemma ends_plain_append (a b : string) :
  ends_plain b = true -> ends_plain (a ++ b) = true.
Proof.
  unfold ends_plain. rewrite list_ascii_of_string_app, rev_app_distr.
  now destruct (rev (list_ascii_of_string b)).
Qed.

Lemma path_join_database (cwd : string) :
  ends_plain (path_join cwd "database") = true.
Proof.
  rewrite path_join_outer. change (is_slash "d") with false. cbv iota.
  rewrite path_join_inner.
  destruct (rev (list_ascii_of_string cwd)) as [|c r]; [reflexivity|].
  destruct (is_slash c).
  - now apply ends_plain_append.
  - rewrite <- append_assoc. now apply ends_plain_append.
Qed.

(** *** Decimal numerals *)

Lemma digits_no_slash (d : Decimal.uint) :
  forallb (fun c => negb (is_slash c))
          (list_ascii_of_string (NilEmpty.string_of_uint d)) = true.
Proof. induction d; simpl; auto. Qed.

Lemma numeral_no_slash (d : Decimal.uint) :
  forallb (fun c => negb (is_slash c))
          (list_ascii_of_string (NilZero.string_of_uint d)) = true.
Proof.
  unfold NilZero.string_of_uint.
  destruct d; try reflexivity; exact (digits_no_slash _).
Qed.

Lemma str_of_int_no_slash (z : Z) :
  forallb (fun c => negb (is_slash c)) (list_ascii_of_string (Py.str_of_int z))
  = true.
Proof.
  unfold Py.str_of_int, NilZero.string_of_int.
  destruct (Z.to_int z) as [d|d]; [apply numeral_no_slash|].
  simpl. apply numeral_no_slash.
Qed.

Lemma str_of_int_nonempty (z : Z) : Py.str_of_int z <> "".
Proof.
  unfold Py.str_of_int, NilZero.string_of_int, NilZero.string_of_uint.
  destruct (Z.to_int z) as [d|d]; [|discriminate].
  destruct d; discriminate.
Qed.

Lemma str_of_int_inj (z z' : Z) :
  Py.str_of_int z = Py.str_of_int z' -> z = z'.
Proof.
  assert (Hparse : forall n : Z,
             NilZero.int_of_string (Py.str_of_int n) = Some (Z.to_int n)).
  { intros n. unfold Py.str_of_int. apply NilZero.isi.
    - destruct n; simpl; try discriminate.
      intros [= H]. now apply DecimalPos.Unsigned.to_uint_nonnil in H.
    - destruct n; simpl; try discriminate.
      intros [= H]. now apply DecimalPos.Unsigned.to_uint_nonnil in H. }
  intros H. apply DecimalZ.to_int_inj.
  pose proof (Hparse z) as Hz. rewrite H, Hparse in Hz. congruence.
Qed.

Lemma no_slash_ends_plain (s : string) :
  s <> "" ->
  forallb (fun c => negb (is_slash c)) (list_ascii_of_string s) = true ->
  ends_plain s = true.
Proof.
  intros Hne Hall. unfold ends_plain.
  destruct (rev (list_ascii_of_string s)) as [|c r] eqn:Hrev.
  - apply (f_equal (@rev ascii)) in Hrev. rewrite rev_involutive in Hrev.
    destruct s; [congruence|discriminate].
  - rewrite forallb_forall in Hall. apply Hall.
    apply in_rev. rewrite Hrev. now left.
Qed.

Lemma str_of_int_ends_plain (z : Z) : ends_plain (Py.str_of_int z) = true.
Proof.
  apply no_slash_ends_plain;
    [apply str_of_int_nonempty|apply str_of_int_no_slash].
Qed.

Lemma str_of_int_head (z : Z) :
  exists (c : ascii) (rest : string),
    Py.str_of_int z = String c rest /\ is_slash c = false.
Proof.
  pose proof (str_of_int_no_slash z) as Hall.
  pose proof (str_of_int_nonempty z) as Hne.
  destruct (Py.str_of_int z) as [|c rest]; [congruence|].
  exists c, rest. split; [reflexivity|].
  simpl in Hall. apply andb_true_iff in Hall as [Hc _].
  now apply negb_true_iff in Hc.
Qed.

(** The default path of a tenant is the path [database] joined to the
    working directory, then the two identifiers and the file name, with a
    slash before each. *)
Lemma default_user_db_path_shape (w : world) (user_id session_id : Z)
    (cwd : string) :
  getcwd w = Py.Return cwd ->
  default_user_db_path w user_id session_id =
  tenant_file (path_join cwd "database") user_id session_id.
Proof.
  intros Hcwd. unfold default_user_db_path, tenant_file. rewrite Hcwd.
  destruct (str_of_int_head user_id) as (c1 & r1 & H1 & Hc1).
  destruct (str_of_int_head session_id) as (c2 & r2 & H2 & Hc2).
  rewrite (path_join_plain (path_join cwd "database") _ c1 r1);
    [|apply path_join_database|exact H1|exact Hc1].
  rewrite (path_join_plain _ (Py.str_of_int session_id) c2 r2);
    [|rewrite <- append_assoc; apply ends_plain_append, str_of_int_ends_plain
     |exact H2|exact Hc2].
  rewrite (path_join_plain _ "rag_vector_db.json" "r" "ag_vector_db.json");
    [|rewrite <- !append_assoc;
      apply ends_plain_append, str_of_int_ends_plain
     |reflexivity|reflexivity].
  now rewrite !append_assoc.
Qed.

Lemma split_at_slash (l1 l2 r1 r2 : list ascii) :
  forallb (fun c => negb (is_slash c)) l1 = true ->
  forallb (fun c => negb (is_slash c)) l2 = true ->
  l1 ++ "/"%char :: r1 = l2 ++ "/"%char :: r2 ->
  l1 = l2 /\ r1 = r2.
Proof.
  revert l2. induction l1 as [|c l1 IH]; intros [|c' l2] H1 H2 Heq;
    simpl in *.
  - injection Heq as <-. now split.
  - injection Heq as <- _. apply andb_true_iff in H2 as [H2 _]. discriminate.
  - injection Heq as -> _. apply andb_true_iff in H1 as [H1 _]. discriminate.
  - injection Heq as <- Heq.
    apply andb_true_iff in H1 as [_ H1]. apply andb_true_iff in H2 as [_ H2].
    destruct (IH l2 H1 H2 Heq) as [-> ->]. now split.
Qed.

Lemma append_inv_head (s t1 t2 : string) :
  (s ++ t1 = s ++ t2)%string -> t1 = t2.
Proof. induction s as [|c s IH]; [auto|]. intros [= H]. auto. Qed.

Lemma tenant_file_inj (root : string) (u s u' s' : Z) :
  tenant_file root u s = tenant_file root u' s' -> u = u' /\ s = s'.
Proof.
  unfold tenant_file. intros H. apply append_inv_head in H.
  injection H as H.
  apply (f_equal list_ascii_of_string) in H.
  rewrite !list_ascii_of_string_app in H. simpl in H.
  apply split_at_slash in H as [Hu H];
    [|apply str_of_int_no_slash|apply str_of_int_no_slash].
  apply split_at_slash in H as [Hs _];
    [|apply str_of_int_no_slash|apply str_of_int_no_slash].
  split; apply str_of_int_inj.
  - rewrite <- (string_of_list_ascii_of_string (Py.str_of_int u)), Hu.
    apply string_of_list_ascii_of_string.
  - rewrite <- (string_of_list_ascii_of_string (Py.str_of_int s)), Hs.
    apply string_of_list_ascii_of_string.
Qed.

Lemma fallback_user_db_path_shape (w : world) (user_id session_id : Z)
    (e : string) :
  getcwd w = Py.Raise e ->
  default_user_db_path w user_id session_id =
  tenant_file "database" user_id session_id.
Proof. intros Hcwd. unfold default_user_db_path. now rewrite Hcwd. Qed.

(** The root below which [get_user_db_path] puts the stores. *)
Lemma default_user_db_path_root (w : world) :
  exists root : string,
    forall user_id session_id : Z,
      default_user_db_path w user_id session_id =
      tenant_file root user_id session_id.
Proof.
  destruct (getcwd w) as [cwd|e] eqn:Hcwd.
  - exists (path_join cwd "database"). intros u s.
    now apply default_user_db_path_shape.
  - exists "database". intros u s. now apply (fallback_user_db_path_shape _ _ _ e).
Qed.

Lemma tenant_file_not_tmp (root root' : string) (u s u' s' : Z) :
  tenant_file root u s <> (tenant_file root' u' s' ++ ".tmp")%string.
Proof.
  unfold tenant_file. intros H.
  apply (f_equal (fun x => rev (list_ascii_of_string x))) in H.
  rewrite !append_assoc in H.
  repeat rewrite list_ascii_of_string_app in H.
  repeat rewrite rev_app_distr in H. simpl in H. discriminate.
Qed.

(** X15.  Without a custom path, two tenants share a store only if they are the
    same tenant, and the store of one is never the temporary file of
    another. *)
Theorem tenant_paths_distinct (w : world) (u s u' s' : Z) :
  (get_user_db_path w u s None = get_user_db_path w u' s' None ->
   u = u' /\ s = s')
  /\ get_user_db_path w u s None <>
     (get_user_db_path w u' s' None ++ ".tmp")%string.
Proof.
  simpl. destruct (default_user_db_path_root w) as [root Hroot].
  rewrite !Hroot. split; [apply tenant_file_inj|apply tenant_file_not_tmp].
Qed.

Lemma ingest_other_lookup (w : world) (fs : files)
    (pdf_path db_path : string) (client : OpenAI) (q : string) :
  q <> db_path -> q <> (db_path ++ ".tmp")%string ->
  (ingest_pdf_to_db w fs pdf_path db_path client).2 !! q = fs !! q.
Proof.
  intros Hq Hqtmp.
  destruct (ingest_cases w fs pdf_path db_path client)
    as [->|(record & -> & _)]; [reflexivity|].
  now apply save_db_other_file.
Qed.

Lemma retrieve_same_file (w : world) (fs fs' : files) (query : query_arg)
    (user_id session_id top_k : Z) (db_path : option string) :
  fs' !! get_user_db_path w user_id session_id db_path =
  fs !! get_user_db_path w user_id session_id db_path ->
  retrieve w fs' query user_id session_id top_k db_path =
  retrieve w fs query user_id session_id top_k db_path.
Proof.
  intros Hsame. unfold retrieve, retrieve_try, search_db.
  now rewrite (load_db_same_file fs fs' _ Hsame).
Qed.

(** X16.  An ingestion into the store of one tenant changes nothing of what
    [retrieve] returns to another tenant, whatever the query. *)
Theorem tenant_isolation (w w' : world) (fs : files) (pdf_path : string)
    (client : OpenAI) (u s u' s' : Z) (query : query_arg) (top_k : Z) :
  (u, s) <> (u', s') ->
  let db_path := get_user_db_path w u s None in
  let fs' := (ingest_pdf_to_db w' fs pdf_path db_path client).2 in
  retrieve w fs' query u' s' top_k None = retrieve w fs query u' s' top_k None.
Proof.
  intros Hne. cbv zeta. apply retrieve_same_file.
  destruct (default_user_db_path_root w) as [root Hroot].
  apply ingest_other_lookup; simpl; rewrite !Hroot.
  - intros H. apply tenant_file_inj in H as [-> ->]. now apply Hne.
  - apply tenant_file_not_tmp.
Qed.

Lemma tenant_isolation_witness :
  let w := sample_world "Some text." (Py.Return (constant_client [1%float])) in
  retrieve w
    (ingest_pdf_to_db w sample_store "b.pdf" (get_user_db_path w 1 0 None)
       (constant_client [1%float])).2
    (Str "text") 0 0 5 None =
  retrieve w sample_store (Str "text") 0 0 5 None.
Proof.
  intros w.
  apply (tenant_isolation w w sample_store "b.pdf" (constant_client [1%float])
           1 0 0 0 (Str "text") 5).
  discriminate.
Defined.

Lemma upload_db_path_shape (sv : Router.server) (w : world)
    (user_id session_id : Z) :
  Router.upload_db_path sv w user_id session_id =
  tenant_file (Router.DATABASE_PATH sv) user_id session_id.
Proof.
  unfold Router.upload_db_path, Router.database_path, get_db_path, tenant_file.
  rewrite !append_assoc.
  destruct (Router.DATABASE_PATH sv ++ _)%string eqn:Hpath; [|reflexivity].
  apply (f_equal String.length) in Hpath.
  rewrite length_append in Hpath. simpl in Hpath. lia.
Qed.

Lemma upload_db_path_default (sv : Router.server) (w : world) (cwd : string)
    (user_id session_id : Z) :
  getcwd w = Py.Return cwd ->
  Router.DATABASE_PATH sv = path_join cwd "database" ->
  Router.upload_db_path sv w user_id session_id =
  get_user_db_path w user_id session_id None.
Proof.
  intros Hcwd Hroot. rewrite upload_db_path_shape. simpl.
  rewrite (default_user_db_path_shape w user_id session_id cwd Hcwd).
  now rewrite Hroot.
Qed.

(** X17.  When [DATABASE_PATH] is the path [database] joined to the working
    directory, the endpoint ingests into the very path [retrieve] reads
    for the same user and session, and into the path it reads for no
    other user or session. *)
Theorem upload_db_path_agrees (sv : Router.server) (w : world)
    (cwd : string) (u s u' s' : Z) :
  getcwd w = Py.Return cwd ->
  Router.DATABASE_PATH sv = path_join cwd "database" ->
  Router.upload_db_path sv w u s = get_user_db_path w u s None
  /\ (Router.upload_db_path sv w u s = get_user_db_path w u' s' None ->
      u = u' /\ s = s').
Proof.
  intros Hcwd Hroot.
  rewrite (upload_db_path_default sv w cwd u s Hcwd Hroot).
  split; [reflexivity|]. simpl.
  rewrite !(default_user_db_path_shape w _ _ cwd Hcwd).
  apply tenant_file_inj.
Qed.

Lemma upload_db_path_agrees_witness :
  let w := sample_world "" (Py.Return failing_client) in
  Router.upload_db_path (sample_server "sk-0") w 0 1 =
  get_user_db_path w 0 1 None.
Proof.
  intros w.
  apply (upload_db_path_agrees (sample_server "sk-0") w "/srv" 0 1 0 1);
    reflexivity.
Defined.

(** ** Text extraction *)

Lemma try_extractors_trimmed (extractors : list (string -> Py.outcome string))
    (pdf_path : string) :
  Forall (fun extractor =>
            forall t, extractor pdf_path = Py.Return t -> trimmed t = true)
         extractors ->
  trimmed (Pdf.try_extractors extractors pdf_path) = true.
Proof.
  induction 1 as [|extractor rest Hfirst _ IH]; [reflexivity|].
  simpl. destruct (extractor pdf_path) as [t|e] eqn:Hrun; [|exact IH].
  destruct (Py.truthy t); [now apply Hfirst|exact IH].
Qed.

Lemma extract_text_trimmed (l : Pdf.libs) (pdf_path : string) :
  trimmed (Pdf.extract_text_from_pdf l pdf_path) = true.
Proof.
  unfold Pdf.extract_text_from_pdf.
  destruct (negb _); [reflexivity|].
  apply try_extractors_trimmed. repeat constructor; intros t.
  - unfold Pdf.extract_text_pymupdf.
    destruct (Pdf.fitz_pages l pdf_path); intros [= <-]. apply strip_trimmed.
  - unfold Pdf.extract_text_pdfplumber.
    destruct (Pdf.pdfplumber_pages l pdf_path); intros [= <-].
    apply strip_trimmed.
  - unfold Pdf.extract_text_pypdf.
    destruct (Pdf.pypdf_pages l pdf_path); intros [= <-]. apply strip_trimmed.
Qed.

Lemma trimmed_not_blank (s : string) :
  s <> "" -> trimmed s = true -> blank s = false.
Proof.
  unfold trimmed, blank. destruct s as [|c s]; [congruence|].
  intros _ H. apply andb_true_iff in H as [H _]. simpl in *.
  apply negb_true_iff in H. now rewrite H.
Qed.

(** X18.  The text the extraction returns has no white space at either end; so
    when it is not empty the chunker makes at least one chunk of it, and
    ingestion never stops at its test for chunks. *)
Theorem extracted_text_chunks (l : Pdf.libs) (pdf_path : string) :
  let raw_text := Pdf.extract_text_from_pdf l pdf_path in
  trimmed raw_text = true
  /\ (raw_text <> "" -> chunk_text raw_text 1200 150 <> []).
Proof.
  cbv zeta. pose proof (extract_text_trimmed l pdf_path) as Htrim.
  split; [exact Htrim|]. intros Hne Hnil.
  apply chunk_text_nil_blank in Hnil; [|lia|lia].
  now rewrite (trimmed_not_blank _ Hne Htrim) in Hnil.
Qed.

(** X19.  Extraction returns the empty string for a path that is not a file.
    For a file it returns the text of the first of PyMuPDF, pdfplumber and
    pypdf, in this order, that returns a text that is not empty, and the
    empty string when none does. *)
Theorem extract_text_first_wins (l : Pdf.libs) (pdf_path : string) :
  let r1 := Pdf.extract_text_pymupdf l pdf_path in
  let r2 := Pdf.extract_text_pdfplumber l pdf_path in
  let r3 := Pdf.extract_text_pypdf l pdf_path in
  let out := Pdf.extract_text_from_pdf l pdf_path in
  (Pdf.isfile l pdf_path = false -> out = "")
  /\ (Pdf.isfile l pdf_path = true ->
      (forall t, r1 = Py.Return t -> t <> "" -> out = t)
      /\ (no_text r1 -> forall t, r2 = Py.Return t -> t <> "" -> out = t)
      /\ (no_text r1 -> no_text r2 ->
          forall t, r3 = Py.Return t -> t <> "" -> out = t)
      /\ (no_text r1 -> no_text r2 -> no_text r3 -> out = "")).
Proof.
  cbv zeta. unfold Pdf.extract_text_from_pdf. split; [now intros ->|].
  intros ->. simpl.
  destruct (Pdf.extract_text_pymupdf l pdf_path) as [[|c1 t1]|e1];
    destruct (Pdf.extract_text_pdfplumber l pdf_path) as [[|c2 t2]|e2];
    destruct (Pdf.extract_text_pypdf l pdf_path) as [[|c3 t3]|e3];
    simpl; repeat split; intros; try congruence; try discriminate;
    try contradiction.
Qed.

(** ** The upload endpoint *)

Lemma upload_pdf_accepted (sv : Router.server) (w : world) (fs : files)
    (session_id user_id : Z) (upload : Router.UploadFile) :
  accepted upload -> written sv ->
  Router.upload_pdf sv w fs session_id user_id upload =
  let path := Router.file_path sv user_id session_id upload in
  let fs1 := <[path := Router.content upload]> fs in
  match Router.setup_env sv with
  | Router.Exits code => (Router.Exits code, fs1)
  | Router.Responds _ =>
      match get_openai_client w with
      | Py.Raise e =>
          (Router.Responds (Router.error_response user_id session_id e), fs1)
      | Py.Return client =>
          (Router.Responds (upload_success session_id user_id),
           (ingest_pdf_to_db w fs1 path
              (Router.upload_db_path sv w user_id session_id) client).2)
      end
  end.
Proof.
  intros [Htype Hname] ([u1 Hfolder] & Hwrite & [u2 Hdb]).
  unfold Router.upload_pdf, Router.store_upload.
  rewrite Htype, Hfolder, Hwrite, Hdb.
  rewrite bool_decide_eq_true_2 by reflexivity.
  rewrite bool_decide_eq_false_2 by assumption. simpl negb. cbv iota zeta.
  destruct (Router.setup_env sv); [|reflexivity].
  destruct (get_openai_client w); [|reflexivity].
  now destruct (ingest_pdf_to_db _ _ _ _ _).
Qed.

(** X20.  An upload of another type than [application/pdf], or with an empty
    name, is answered with an error and no identifier, and no file is
    written. *)
Theorem upload_pdf_rejected (sv : Router.server) (w : world) (fs : files)
    (session_id user_id : Z) (upload : Router.UploadFile) :
  Router.content_type upload <> Some "application/pdf"
    \/ Router.filename upload = Some "" ->
  exists r : Router.APIResponse,
    Router.upload_pdf sv w fs session_id user_id upload
      = (Router.Responds r, fs)
    /\ Router.response r = ""
    /\ Router.session_id r = None /\ Router.user_id r = None
    /\ (Router.error_status r = "Invalid file type. Please upload a PDF file."
        \/ Router.error_status r = "No file uploaded. Please upload a PDF file.").
Proof.
  intros Hbad. unfold Router.upload_pdf.
  destruct (bool_decide (Router.content_type upload = Some "application/pdf"))
    eqn:Htype; simpl negb; cbv iota.
  - destruct Hbad as [Hbad|Hname];
      [now apply bool_decide_eq_true_1 in Htype|].
    rewrite bool_decide_eq_true_2 by assumption.
    eexists. split; [reflexivity|]. simpl. auto.
  - eexists. split; [reflexivity|]. simpl. auto.
Qed.

Lemma upload_pdf_rejected_witness :
  exists r : Router.APIResponse,
    Router.upload_pdf (sample_server "sk-0")
      (sample_world "Some text." (Py.Return failing_client)) no_files 7 3
      (sample_upload "text/plain") = (Router.Responds r, no_files)
    /\ Router.session_id r = None.
Proof.
  destruct (upload_pdf_rejected (sample_server "sk-0")
              (sample_world "Some text." (Py.Return failing_client)) no_files
              7 3 (sample_upload "text/plain"))
    as (r & Hrun & _ & Hsession & _); [left; discriminate|].
  exists r. split; assumption.
Defined.

(** X21.  Once the upload is written, the key is set and the client is built,
    the endpoint answers with its message of success whatever ingestion
    returns: also when ingestion returns [None] and leaves the store as it
    was. *)
Theorem upload_pdf_success_blind (sv : Router.server) (w : world)
    (fs : files) (session_id user_id : Z) (upload : Router.UploadFile)
    (client : OpenAI) :
  accepted upload -> written sv ->
  Router.setup_env sv = Router.Responds tt ->
  get_openai_client w = Py.Return client ->
  let path := Router.file_path sv user_id session_id upload in
  let db_path := Router.upload_db_path sv w user_id session_id in
  let fs1 := <[path := Router.content upload]> fs in
  Router.upload_pdf sv w fs session_id user_id upload =
    (Router.Responds (upload_success session_id user_id),
     (ingest_pdf_to_db w fs1 path db_path client).2)
  /\ ((ingest_pdf_to_db w fs1 path db_path client).1 = None ->
      Router.upload_pdf sv w fs session_id user_id upload =
      (Router.Responds (upload_success session_id user_id), fs1)).
Proof.
  intros Hacc Hwritten Hkey Hclient. cbv zeta.
  rewrite (upload_pdf_accepted sv w fs session_id user_id upload Hacc Hwritten).
  cbv zeta. rewrite Hkey, Hclient. split; [reflexivity|].
  intros Hnone. f_equal.
  destruct (ingest_cases w (<[Router.file_path sv user_id session_id upload
                              := Router.content upload]> fs)
              (Router.file_path sv user_id session_id upload)
              (Router.upload_db_path sv w user_id session_id) client)
    as [->|(record & Hsome & _)]; [reflexivity|].
  rewrite Hsome in Hnone. discriminate.
Qed.

Lemma upload_pdf_success_blind_witness :
  let fs1 : files := {[ "/srv/upload/3/7/pdf/a.pdf" := Unreadable ]} in
  Router.upload_pdf (sample_server "sk-0")
    (sample_world "" (Py.Return failing_client)) no_files 7 3
    (sample_upload "application/pdf") =
  (Router.Responds (upload_success 7 3), fs1).
Proof.
  intros fs1.
  destruct (upload_pdf_success_blind (sample_server "sk-0")
              (sample_world "" (Py.Return failing_client)) no_files 7 3
              (sample_upload "application/pdf") failing_client)
    as [_ Hnone].
  - split; [reflexivity | discriminate].
  - repeat split; try (exists tt); reflexivity.
  - reflexivity.
  - reflexivity.
  - rewrite Hnone by reflexivity. reflexivity.
Defined.

(** X22.  With the key missing or blank, or [load_dotenv] failing, the endpoint
    ends the process with status 1 instead of answering, after it has
    written the upload; nothing is ingested. *)
Theorem upload_pdf_exits (sv : Router.server) (w : world) (fs : files)
    (session_id user_id : Z) (upload : Router.UploadFile) :
  accepted upload -> written sv ->
  no_text (match Router.openai_api_key sv with
           | Py.Return key => Py.Return (Py.strip key)
           | Py.Raise e => Py.Raise e
           end) ->
  Router.upload_pdf sv w fs session_id user_id upload =
  (Router.Exits 1,
   <[Router.file_path sv user_id session_id upload := Router.content upload]> fs).
Proof.
  intros Hacc Hwritten Hkey.
  rewrite (upload_pdf_accepted sv w fs session_id user_id upload Hacc Hwritten).
  cbv zeta. unfold Router.setup_env.
  destruct (Router.openai_api_key sv) as [key|e]; [|reflexivity].
  simpl in Hkey. now rewrite Hkey.
Qed.

Lemma upload_pdf_exits_witness :
  let fs1 : files := {[ "/srv/upload/3/7/pdf/a.pdf" := Unreadable ]} in
  Router.upload_pdf (sample_server "  ")
    (sample_world "Some text." (Py.Return failing_client)) no_files 7 3
    (sample_upload "application/pdf") = (Router.Exits 1, fs1).
Proof.
  intros fs1.
  rewrite (upload_pdf_exits (sample_server "  ")
             (sample_world "Some text." (Py.Return failing_client)) no_files
             7 3 (sample_upload "application/pdf")).
  - reflexivity.
  - split; [reflexivity | discriminate].
  - repeat split; try (exists tt); reflexivity.
  - reflexivity.
Defined.

(** ** From the upload to the retrieval *)

Lemma retrieve_hits (w : world) (fs : files) (client : OpenAI)
    (query : string) (user_id session_id top_k : Z)
    (db_path : option string) :
  query <> "" ->
  get_openai_client w = Py.Return client ->
  let hits :=
    search_db fs (get_user_db_path w user_id session_id db_path) client query
      top_k in
  hits <> [] ->
  retrieve w fs (Str query) user_id session_id top_k db_path =
  Py.Return (Py.join_lines (map format_hit (Py.enumerate 1 hits))).
Proof.
  intros Hquery Hclient hits Hhits. unfold retrieve, retrieve_try.
  rewrite (truthy_nonempty query Hquery), Hclient. simpl negb. cbv iota zeta.
  fold hits. apply is_nil_false in Hhits. now rewrite Hhits.
Qed.

Lemma format_hit_head (ih : Z * hit) :
  exists rest : string, format_hit ih = String "["%char rest.
Proof.
  destruct ih as [i [[score text] source]]. unfold format_hit.
  eexists. reflexivity.
Qed.

Lemma join_lines_head (c : ascii) (lines : list string) :
  lines <> [] ->
  Forall (fun l => exists rest, l = String c rest) lines ->
  exists rest : string, Py.join_lines lines = String c rest.
Proof.
  intros Hne Hall. destruct lines as [|l ls]; [congruence|].
  apply Forall_cons_1 in Hall as [[rest ->] _].
  destruct ls as [|l' ls]; [now exists rest|].
  eexists. cbn [Py.join_lines]. reflexivity.
Qed.

(** X23.  When the endpoint's database root is the folder [database] of the
    working directory, an upload whose ingestion returns an identifier and
    whose write goes through is found by [retrieve] for the same user and
    session: for a query that is not empty and whose embedding succeeds,
    the tool returns the formatted hits, not its message of no result. *)
Theorem upload_then_retrieve (sv : Router.server) (w : world) (fs : files)
    (session_id user_id : Z) (upload : Router.UploadFile) (client : OpenAI)
    (cwd query : string) (top_k : Z) :
  accepted upload -> written sv ->
  Router.setup_env sv = Router.Responds tt ->
  get_openai_client w = Py.Return client ->
  getcwd w = Py.Return cwd ->
  Router.DATABASE_PATH sv = path_join cwd "database" ->
  save_fault w = NoFault ->
  let path := Router.file_path sv user_id session_id upload in
  let db_path := Router.upload_db_path sv w user_id session_id in
  let fs1 := <[path := Router.content upload]> fs in
  (ingest_pdf_to_db w fs1 path db_path client).1 <> None ->
  query <> "" ->
  embed_texts client [query] default_model <> [] ->
  let fs' := (Router.upload_pdf sv w fs session_id user_id upload).2 in
  exists hits : list hit,
    hits <> []
    /\ retrieve w fs' (Str query) user_id session_id top_k None =
       Py.Return (Py.join_lines (map format_hit (Py.enumerate 1 hits)))
    /\ retrieve w fs' (Str query) user_id session_id top_k None <>
       Py.Return (no_results user_id session_id).
Proof.
  intros Hacc Hwritten Hkey Hclient Hcwd Hroot Hfault path db_path fs1 Hdoc
    Hquery Hemb fs'.
  assert (Hfs' : fs' = (ingest_pdf_to_db w fs1 path db_path client).2).
  { unfold fs'.
    rewrite (upload_pdf_accepted sv w fs session_id user_id upload Hacc
               Hwritten).
    cbv zeta. now rewrite Hkey, Hclient. }
  assert (Hpath : db_path = get_user_db_path w user_id session_id None)
    by (apply (upload_db_path_default sv w cwd); assumption).
  destruct (ingest_pdf_to_db w fs1 path db_path client) as [[d|] fs2] eqn:Hrun;
    [|now contradiction Hdoc].
  simpl in Hfs'. subst fs2.
  pose proof (search_after_ingest w fs1 fs' path db_path client client d query
                top_k Hrun Hfault Hemb) as Hhits.
  rewrite Hpath in Hhits.
  pose proof (retrieve_hits w fs' client query user_id session_id top_k None
                Hquery Hclient Hhits) as Hret.
  eexists. split; [exact Hhits|]. split; [exact Hret|].
  rewrite Hret.
  destruct (join_lines_head "["%char
              (map format_hit
                 (Py.enumerate 1
                    (search_db fs' (get_user_db_path w user_id session_id None)
                       client query top_k)))) as [rest Hrest].
  - destruct (search_db _ _ _ _ _); [congruence|discriminate].
  - apply List.Forall_forall. intros l Hl. apply in_map_iff in Hl as (ih & <- & _).
    apply format_hit_head.
  - rewrite Hrest. unfold no_results. discriminate.
Qed.

Lemma upload_then_retrieve_witness :
  let w := sample_world "Some text." (Py.Return (constant_client [1%float])) in
  let fs' :=
    (Router.upload_pdf (sample_server "sk-0") w no_files 7 3
       (sample_upload "application/pdf")).2 in
  retrieve w fs' (Str "text") 3 7 5 None <> Py.Return (no_results 3 7).
Proof.
  intros w fs'.
  destruct (upload_then_retrieve (sample_server "sk-0") w no_files 7 3
              (sample_upload "application/pdf") (constant_client [1%float])
              "/srv" "text" 5)
    as (hits & _ & _ & Hne).
  - split; [reflexivity | discriminate].
  - repeat split; try (exists tt); reflexivity.
  - reflexivity.
  - reflexivity.
  - reflexivity.
  - reflexivity.
  - reflexivity.
  - discriminate.
  - discriminate.
  - discriminate.
  - exact Hne.
Defined.
